(** * react-url-query: the [addUrlProps] higher-order component

    A shallow embedding of [src/react/addUrlProps.js] and the properties of
    the wrapper it builds: how the query source is resolved, how router
    params are merged, how change handlers are generated, named and cached.

    Modelling conventions.
    - JavaScript objects used as dictionaries are [gmap string _]; the
      configuration object is an association list in [Object.keys] order.
    - Strings are ASCII texts; [toUpperCase] upper-cases the letters a-z,
      which is what [String.prototype.toUpperCase] does on ASCII characters
      and not beyond them. Statements about the upper-cased character assume
      an ASCII character.
    - Objects whose identity matters (the generated handler set, the
      generated functions) live in an explicit store and are named by
      references.
    - The modules the file imports ([query-string], [urlQueryDecoder],
      [serialize]) are an interface, the class [Imports]; their functions are
      taken to return normally.
    - Props are typed as the component declares them: [location], when it is
      an object, is a location object; [params], when present, is a plain
      object. *)

From Stdlib Require Import Ascii String ZArith Lia.
From stdpp Require Import gmap strings list fin_maps.

Open Scope string_scope.

(** ** JavaScript values *)

(** The primitive values that options, query entries and props hold. *)
Inductive value : Type :=
  | VUndefined
  | VNull
  | VBool (b : bool)
  | VNum (n : Z)
  | VStr (s : string).

(** [ToBoolean]: what [if (v)], [v || w] and [v && w] test. *)
Definition truthy (v : value) : bool :=
  match v with
  | VUndefined | VNull => false
  | VBool b => b
  | VNum n => negb (n =? 0)%Z
  | VStr s => negb (String.eqb s "")
  end.

(** [v !== false] *)
Definition notStrictFalse (v : value) : bool :=
  match v with
  | VBool false => false
  | _ => true
  end.

(** [v == null]: true of [null] and [undefined] only. *)
Definition looseNull (v : value) : bool :=
  match v with
  | VUndefined | VNull => true
  | _ => false
  end.

(** Outcome of a call that may raise a [TypeError]. *)
Inductive result (A : Type) : Type :=
  | Ok (a : A)
  | TypeError.
Arguments Ok {A} a.
Arguments TypeError {A}.

(** ** Locations, field descriptors, handlers, props *)

(** A location-like object: [query] is [None] when the property is absent or
    falsy, [search] is [None] when there is no search string. *)
Record Location : Type := {
  loc_query : option (gmap string value);
  loc_search : option string;
}.

(** One entry of [urlPropsQueryConfig]: [{ updateType, queryParam, type }].
    [fc_queryParam = None] is an [undefined] property, the case in which the
    destructuring default applies. *)
Record FieldConfig : Type := {
  fc_updateType : value;
  fc_queryParam : option string;
  fc_type : value;
}.

(** A [generatedUrlChangeHandler] closure after [.bind(this)]: its identity
    as a function object, the instance it is bound to, and the variables it
    captured from the enclosing [reduce] callback. *)
Record Handler : Type := {
  h_id : nat;
  h_this : nat;
  h_updateType : value;
  h_queryParam : string;
  h_type : value;
}.

(** What a prop can hold. *)
Inductive PropVal : Type :=
  | PVal (v : value)
  | PObject (o : gmap string value)
  | PLocation (l : Location)
  | PHandler (h : Handler).

(** [props.location], when it is a location object. *)
Definition propsLocation (props : gmap string PropVal) : option Location :=
  match props !! "location" with
  | Some (PLocation l) => Some l
  | _ => None
  end.

(** [props.params], when it is an object. *)
Definition propsParams (props : gmap string PropVal) : option (gmap string value) :=
  match props !! "params" with
  | Some (PObject o) => Some o
  | _ => None
  end.

(** [Object.assign(target, source)] on dictionaries: the source's entries
    win. [source] is [None] for [undefined], which [Object.assign] skips. *)
Definition objectAssign {V} (target : gmap string V) (source : option (gmap string V))
  : gmap string V :=
  match source with
  | Some s => s ∪ target
  | None => target
  end.

(** ** The global [urlQueryConfig] and the browser *)

Record UrlQueryConfig : Type := {
  history_location : option Location;
  cfg_addRouterParams : value;
  cfg_addUrlChangeHandlers : value;
  cfg_changeHandlerName : option (string -> string);
}.

Record Globals : Type := {
  urlQueryConfig : UrlQueryConfig;
  window_location : Location;
}.

(** The three places a location can come from, in the order the wrapper
    tries them. *)
Inductive Source : Type :=
  | PropSource
  | HistorySource
  | WindowSource.

(** ** The store *)

(** The objects the wrapper allocates: [heap] maps the reference of an object
    to its properties and [next] is the next free reference. *)
Record Store : Type := {
  heap : gmap nat (gmap string PropVal);
  next : nat;
}.

(** The value of the closure variable [changeHandlerName] once it holds a
    function: the module's [defaultChangeHandlerName] or a function supplied
    by the user. *)
Inductive NameFn : Type :=
  | DefaultName
  | UserName (f : string -> string).

(** The mutable variables of the closures, with the store.
    [changeHandlerName] is the [let] of [addUrlProps], [cachedHandlers] the
    [let] of [addPropsWrapper]: one per wrapped class, not one per instance
    of it. *)
Record State : Type := {
  changeHandlerName : option NameFn;
  cachedHandlers : option nat;
  store : Store;
}.

(** ** Options of [addUrlProps] *)

(** A user-supplied [mapUrlChangeHandlersToProps] sees the props and the
    generated handler set (a reference, or [None] for [undefined]); it can
    read, write and allocate objects, not the closure variables. *)
Record Options : Type := {
  mapUrlToProps : option (gmap string value -> gmap string PropVal -> gmap string PropVal);
  mapUrlChangeHandlersToProps :
    option (gmap string PropVal -> option nat -> Store -> option nat * Store);
  urlPropsQueryConfig : option (list (string * FieldConfig));
  addRouterParams : value;
  addUrlChangeHandlers : value;
  opt_changeHandlerName : option (string -> string);
}.

(** The variables as [addUrlProps(options)(WrappedComponent)] leaves them. *)
Definition initState (o : Options) (s : Store) : State :=
  {| changeHandlerName := UserName <$> opt_changeHandlerName o;
     cachedHandlers := None;
     store := s |}.

(** The arguments of one call of [updateUrlQuerySingle]. *)
Record UpdateCall : Type := {
  uc_updateType : value;
  uc_queryParam : string;
  uc_encodedValue : value;
  uc_location : option PropVal;
}.

(** The imported modules. *)
Class Imports : Type := {
  parseQueryString : option string -> option (gmap string value);
  urlQueryDecoder : list (string * FieldConfig) -> gmap string value -> gmap string value;
  encode : value -> value -> value;
}.

(** ** [defaultChangeHandlerName] *)

Definition toUpperCaseChar (c : ascii) : ascii :=
  let n := nat_of_ascii c in
  if (97 <=? n)%nat && (n <=? 122)%nat then ascii_of_nat (n - 32) else c.

Fixpoint toUpperCase (s : string) : string :=
  match s with
  | EmptyString => EmptyString
  | String c rest => String (toUpperCaseChar c) (toUpperCase rest)
  end.

(** [propName.substring(1)] *)
Definition substring1 (s : string) : string :=
  String.substring 1 (String.length s - 1) s.

(** [`onChange${propName[0].toUpperCase()}${propName.substring(1)}`];
    [propName[0]] is [undefined] for the empty string and the method call on
    it raises. *)
Definition defaultChangeHandlerName (propName : string) : result string :=
  match String.get 0 propName with
  | None => TypeError
  | Some c =>
      Ok ("onChange" +:+ toUpperCase (String c EmptyString) +:+ substring1 propName)
  end.

(** Calling the value of the variable [changeHandlerName]. *)
Definition callName (f : NameFn) (propName : string) : result string :=
  match f with
  | DefaultName => defaultChangeHandlerName propName
  | UserName g => Ok (g propName)
  end.

Section Wrapper.
Context {imports : Imports}.

(** *** [getUrlObject] *)

(** Lines 52-65: the location the query is read from, with the branch that
    chose it. *)
Definition resolveLocation (g : Globals) (props : gmap string PropVal)
  : Source * Location :=
  match propsLocation props with
  | Some l =>
      match loc_query l with
      | Some _ => (PropSource, l)
      | None =>
          match history_location (urlQueryConfig g) with
          | Some hl => (HistorySource, hl)
          | None => (WindowSource, window_location g)
          end
      end
  | None =>
      match history_location (urlQueryConfig g) with
      | Some hl => (HistorySource, hl)
      | None => (WindowSource, window_location g)
      end
  end.

(** Line 67: [location.query || parseQueryString(location.search) || {}],
    with the arguments [parseQueryString] was called on. *)
Definition currentQueryOf (location : Location)
  : gmap string value * list (option string) :=
  match loc_query location with
  | Some q => (q, [])
  | None =>
      match parseQueryString (loc_search location) with
      | Some q => (q, [loc_search location])
      | None => (∅, [loc_search location])
      end
  end.

(** [addPropsWrapper], lines 40-45: the decoder, built only when a
    configuration was given. *)
Definition decodeQuery (o : Options)
  : option (gmap string value -> gmap string value) :=
  match urlPropsQueryConfig o with
  | Some cfg => Some (urlQueryDecoder cfg)
  | None => None
  end.

(** Line 78: the test that guards the merge of the router params. *)
Definition routerParamsEnabled (o : Options) (g : Globals) : bool :=
  truthy (addRouterParams o)
  || (notStrictFalse (addRouterParams o)
      && truthy (cfg_addRouterParams (urlQueryConfig g))).

(** Lines 52-75: the query read from the resolved location, decoded when a
    decoder exists, with the strings that were parsed to build it. *)
Definition urlDerived (o : Options) (g : Globals) (props : gmap string PropVal)
  : gmap string value * list (option string) :=
  let '(_, location) := resolveLocation g props in
  let '(currentQuery, parsed) := currentQueryOf location in
  match decodeQuery o with
  | Some decode => (decode currentQuery, parsed)
  | None => (currentQuery, parsed)
  end.

(** The url object. The value is the content of [result] at [return]; in
    the source the merge writes into the object [result] names. *)
Definition getUrlObject (o : Options) (g : Globals) (props : gmap string PropVal)
  : gmap string value * list (option string) :=
  let '(result, parsed) := urlDerived o g props in
  if routerParamsEnabled o g
  then (objectAssign result (propsParams props), parsed)
  else (result, parsed).

(** *** [getUrlChangeHandlerProps] *)

(** Line 104: the test that guards the generation of handlers. *)
Definition handlersEnabled (o : Options) (g : Globals) : bool :=
  truthy (addUrlChangeHandlers o)
  || (looseNull (addUrlChangeHandlers o)
      && truthy (cfg_addUrlChangeHandlers (urlQueryConfig g))).

(** Lines 111-113: the naming function in force after the assignment. *)
Definition resolveName (st : State) (g : Globals) : NameFn :=
  match changeHandlerName st with
  | Some f => f
  | None =>
      match cfg_changeHandlerName (urlQueryConfig g) with
      | Some f => UserName f
      | None => DefaultName
      end
  end.

(** Lines 116-130: the [reduce] over [Object.keys(urlPropsQueryConfig)].
    [n] is the reference the next function object gets. *)
Fixpoint reduceHandlers (this : nat) (name : NameFn) (cfg : list (string * FieldConfig))
    (handlersAccum : gmap string PropVal) (n : nat)
  : result (gmap string PropVal * nat) :=
  match cfg with
  | [] => Ok (handlersAccum, n)
  | (propName, fc) :: rest =>
      match callName name propName with
      | TypeError => TypeError
      | Ok handlerName =>
          let h := {| h_id := n;
                      h_this := this;
                      h_updateType := fc_updateType fc;
                      h_queryParam := default propName (fc_queryParam fc);
                      h_type := fc_type fc |} in
          reduceHandlers this name rest (<[handlerName := PHandler h]> handlersAccum) (S n)
      end
  end.

(** Lines 101-136: the generated handler set, from the cache or new. When
    the naming function raises, [changeHandlerName] has been assigned and
    nothing else; the objects built so far are unreachable. *)
Definition generateHandlers (o : Options) (g : Globals) (this : nat) (st : State)
  : result (option nat) * State :=
  match urlPropsQueryConfig o with
  | None => (Ok None, st)
  | Some cfg =>
      if handlersEnabled o g then
        match cachedHandlers st with
        | Some r => (Ok (Some r), st)
        | None =>
            let name := resolveName st g in
            let r := next (store st) in
            match reduceHandlers this name cfg ∅ (S r) with
            | TypeError =>
                (TypeError,
                 {| changeHandlerName := Some name;
                    cachedHandlers := None;
                    store := store st |})
            | Ok (handlers, n) =>
                (Ok (Some r),
                 {| changeHandlerName := Some name;
                    cachedHandlers := Some r;
                    store := {| heap := <[r := handlers]> (heap (store st));
                                next := n |} |})
            end
        end
      else (Ok None, st)
  end.

(** The method: the generated set, handed to
    [mapUrlChangeHandlersToProps] when there is one. *)
Definition getUrlChangeHandlerProps (o : Options) (g : Globals) (this : nat)
    (propsWithUrl : gmap string PropVal) (st : State)
  : result (option nat) * State :=
  match generateHandlers o g this st with
  | (TypeError, st1) => (TypeError, st1)
  | (Ok handlers, st1) =>
      match mapUrlChangeHandlersToProps o with
      | Some f =>
          let '(mapped, s2) := f propsWithUrl handlers (store st1) in
          (Ok mapped,
           {| changeHandlerName := changeHandlerName st1;
              cachedHandlers := cachedHandlers st1;
              store := s2 |})
      | None => (Ok handlers, st1)
      end
  end.

(** Lines 124-127: a call of a generated handler. [instances] gives the
    current props of every mounted instance; the handler reads those of the
    instance it is bound to. *)
Definition generatedUrlChangeHandler (h : Handler)
    (instances : gmap nat (gmap string PropVal)) (v : value) : UpdateCall :=
  let encodedValue := encode (h_type h) v in
  {| uc_updateType := h_updateType h;
     uc_queryParam := h_queryParam h;
     uc_encodedValue := encodedValue;
     uc_location := instances !! h_this h ≫= (λ props, props !! "location") |}.

(** *** [render] *)

(** The props the wrapped component is rendered with. Props are values
    here: the [location] prop is handed on with the query it came with,
    while in the source a merge that ran without a decoder has written the
    router params into that query object. *)
Definition render (o : Options) (g : Globals) (this : nat)
    (props : gmap string PropVal) (st : State)
  : result (gmap string PropVal) * State :=
  let '(url, _) := getUrlObject o g props in
  let mapped :=
    match mapUrlToProps o with
    | Some f => f url props
    | None => PVal <$> url
    end in
  let propsWithUrl := objectAssign (objectAssign ∅ (Some props)) (Some mapped) in
  match getUrlChangeHandlerProps o g this propsWithUrl st with
  | (TypeError, st1) => (TypeError, st1)
  | (Ok handlers, st1) =>
      (Ok (objectAssign propsWithUrl (handlers ≫= (λ r, heap (store st1) !! r))), st1)
  end.

(** Successive calls of [getUrlChangeHandlerProps], each by some instance
    with some props, under one configuration. *)
Fixpoint calls (o : Options) (g : Globals) (args : list (nat * gmap string PropVal))
    (st : State) : list (result (option nat)) * State :=
  match args with
  | [] => ([], st)
  | (this, propsWithUrl) :: rest =>
      let '(r, st1) := getUrlChangeHandlerProps o g this propsWithUrl st in
      let '(rs, st2) := calls o g rest st1 in
      (r :: rs, st2)
  end.

End Wrapper.

(** ** The URL update *)

(** The two update strategies: write in place, or push a new history entry. *)
Inductive Strategy : Type :=
  | ReplaceInPlace
  | PushEntry.

(** The query of the current URL and the queries of the earlier history
    entries, most recent first. *)
Record UrlState : Type := {
  current : gmap string value;
  entries : list (gmap string value);
}.

(** Modelled from the spec: [updateUrlQuerySingle] of [../updateUrlQuery],
    which is not among the sources. The spec describes it as an update
    function parameterized by an update strategy (replace in place or push a
    new entry) and a query key/value pair, writing a single field of the
    URL. [strategyOf] reads the strategy off the [updateType] argument. *)
Definition updateUrlQuerySingle (strategyOf : value -> Strategy)
    (c : UpdateCall) (u : UrlState) : UrlState :=
  let written := <[uc_queryParam c := uc_encodedValue c]> (current u) in
  match strategyOf (uc_updateType c) with
  | ReplaceInPlace => {| current := written; entries := entries u |}
  | PushEntry => {| current := written; entries := current u :: entries u |}
  end.

(** ** The specification's wording, as definitions *)

(** The merge is enabled: [addRouterParams] is true, or it is not false and
    the global [urlQueryConfig.addRouterParams] is set. *)
Definition mergingEnabled (o : Options) (g : Globals) : Prop :=
  addRouterParams o = VBool true
  ∨ (addRouterParams o ≠ VBool false
     ∧ truthy (cfg_addRouterParams (urlQueryConfig g)) = true).

(** The location prop can be used as the source: it is there and carries a
    query. *)
Definition usableLocationProp (props : gmap string PropVal) : option Location :=
  l ← propsLocation props;
  match loc_query l with
  | Some _ => Some l
  | None => None
  end.

(** The source when the location prop is not used: the history's location,
    or else the window's. *)
Definition fallbackLocation (g : Globals) : Source * Location :=
  match history_location (urlQueryConfig g) with
  | Some hl => (HistorySource, hl)
  | None => (WindowSource, window_location g)
  end.

(** The lower-case ASCII letters, each with its upper-case letter. *)
Definition lowerUpper : list (ascii * ascii) :=
  [ ("a", "A"); ("b", "B"); ("c", "C"); ("d", "D"); ("e", "E"); ("f", "F");
    ("g", "G"); ("h", "H"); ("i", "I"); ("j", "J"); ("k", "K"); ("l", "L");
    ("m", "M"); ("n", "N"); ("o", "O"); ("p", "P"); ("q", "Q"); ("r", "R");
    ("s", "S"); ("t", "T"); ("u", "U"); ("v", "V"); ("w", "W"); ("x", "X");
    ("y", "Y"); ("z", "Z") ]%char.

Fixpoint assocChar (c : ascii) (l : list (ascii * ascii)) : option ascii :=
  match l with
  | [] => None
  | (x, y) :: rest => if Ascii.eqb c x then Some y else assocChar c rest
  end.

(** An ASCII character upper-cased: a letter a-z becomes the letter A-Z,
    any other character stays as it is. *)
Definition upperCased (c : ascii) : ascii :=
  default c (assocChar c lowerUpper).

(** The character is in the ASCII range. *)
Definition isAscii (c : ascii) : Prop := (nat_of_ascii c < 128)%nat.

(** A prop name with a first character, which is an ASCII character. *)
Definition asciiInitial (propName : string) : Prop :=
  ∃ c rest, propName = String c rest ∧ isAscii c.

(** The handler names of the configured fields, in order. *)
Definition handlerNames (name : NameFn) (cfg : list (string * FieldConfig))
  : list (result string) :=
  map (λ pf, callName name pf.1) cfg.

(** The handler the [reduce] callback builds for the [i]-th field. *)
Definition handlerOf (this n i : nat) (pf : string * FieldConfig) : Handler :=
  {| h_id := n + i;
     h_this := this;
     h_updateType := fc_updateType pf.2;
     h_queryParam := default pf.1 (fc_queryParam pf.2);
     h_type := fc_type pf.2 |}.

(** ** The wrapper class *)

(** What [addPropsWrapper] reads of the component it wraps: the static
    [displayName] and the function's [name], [None] when absent. *)
Record Component : Type := {
  wc_displayName : option string;
  wc_name : option string;
}.

(** [a || b] on strings that may be absent: [a] when it is a non-empty
    string, [b] otherwise. *)
Definition orString (a : option string) (b : string) : string :=
  match a with
  | Some s => if String.eqb s "" then b else s
  | None => b
  end.

(** Line 85: [WrappedComponent.displayName || WrappedComponent.name ||
    'Component']. *)
Definition displayName (W : Component) : string :=
  orString (wc_displayName W) (orString (wc_name W) "Component").

(** The statics of the class [AddUrlProps], lines 87-88. *)
Record WrapperClass : Type := {
  cls_displayName : string;
  cls_WrappedComponent : Component;
}.

Definition addPropsWrapper (W : Component) : WrapperClass :=
  {| cls_displayName := "AddUrlProps(" +:+ displayName W +:+ ")";
     cls_WrappedComponent := W |}.

(** ** The stages of [render] *)

Section RenderStages.
Context {imports : Imports}.

(** Line 157: [mapUrlToProps(url, this.props)], with the default [d => d]. *)
Definition mappedUrlProps (o : Options) (g : Globals) (props : gmap string PropVal)
  : gmap string PropVal :=
  match mapUrlToProps o with
  | Some f => f (getUrlObject o g props).1 props
  | None => PVal <$> (getUrlObject o g props).1
  end.

(** Line 157: [Object.assign({}, this.props, mapUrlToProps(url, this.props))]. *)
Definition propsWithUrlOf (o : Options) (g : Globals) (props : gmap string PropVal)
  : gmap string PropVal :=
  objectAssign (objectAssign ∅ (Some props)) (Some (mappedUrlProps o g props)).

End RenderStages.

(** ** Stand-ins for the examples *)

(** Imported modules for the examples: a parser that keeps the search string
    under the key [search], a decoder that renames [queryParam] to the prop
    name, an encoder that leaves the value as it is. *)
Definition stubImports : Imports :=
  {| parseQueryString := λ s,
       Some (match s with
             | Some str => {[ "search" := VStr str ]}
             | None => ∅
             end);
     urlQueryDecoder := λ cfg q,
       list_to_map
         (omap (λ pf : string * FieldConfig,
                  (λ v, (pf.1, v)) <$> q !! default pf.1 (fc_queryParam pf.2)) cfg);
     encode := λ _ v, v |}.

Definition noGlobals : Globals :=
  {| urlQueryConfig :=
       {| history_location := None;
          cfg_addRouterParams := VUndefined;
          cfg_addUrlChangeHandlers := VBool true;
          cfg_changeHandlerName := None |};
     window_location := {| loc_query := None; loc_search := Some "?w=1" |} |}.

Definition historyGlobals : Globals :=
  {| urlQueryConfig :=
       {| history_location := Some {| loc_query := None; loc_search := Some "?h=1" |};
          cfg_addRouterParams := VUndefined;
          cfg_addUrlChangeHandlers := VBool true;
          cfg_changeHandlerName := None |};
     window_location := {| loc_query := None; loc_search := Some "?w=1" |} |}.

(** Options without a configuration; [addRouterParams] as given. *)
Definition plainOptions (routerParams : value) : Options :=
  {| mapUrlToProps := None;
     mapUrlChangeHandlersToProps := None;
     urlPropsQueryConfig := None;
     addRouterParams := routerParams;
     addUrlChangeHandlers := VUndefined;
     opt_changeHandlerName := None |}.

(** Props of a routed component: the URL says [id=url], the route [id=router]. *)
Definition routedProps : gmap string PropVal :=
  {[ "location" :=
       PLocation {| loc_query := Some {[ "id" := VStr "url"; "page" := VStr "2" ]};
                    loc_search := Some "?id=url&page=2" |};
     "params" := PObject {[ "id" := VStr "router" ]} ]}.

(** Props whose location has a search string and no query. *)
Definition searchOnlyProps : gmap string PropVal :=
  {[ "location" := PLocation {| loc_query := None; loc_search := Some "?p=1" |} ]}.


(** A configuration of two fields, one with a [queryParam] of its own. *)
Definition fooBarConfig : list (string * FieldConfig) :=
  [ ("foo", {| fc_updateType := VStr "pushIn";
               fc_queryParam := Some "f";
               fc_type := VStr "number" |});
    ("bar", {| fc_updateType := VUndefined;
               fc_queryParam := None;
               fc_type := VStr "string" |}) ].

(** Two distinct prop names that differ in the case of the first letter. *)
Definition fooFooConfig : list (string * FieldConfig) :=
  [ ("foo", {| fc_updateType := VUndefined;
               fc_queryParam := None;
               fc_type := VStr "number" |});
    ("Foo", {| fc_updateType := VUndefined;
               fc_queryParam := None;
               fc_type := VStr "string" |}) ].

(** Options with a configuration and generated handlers asked for. *)
Definition configOptions (cfg : list (string * FieldConfig))
    (mapper : option (gmap string PropVal -> option nat -> Store -> option nat * Store))
  : Options :=
  {| mapUrlToProps := None;
     mapUrlChangeHandlersToProps := mapper;
     urlPropsQueryConfig := Some cfg;
     addRouterParams := VUndefined;
     addUrlChangeHandlers := VBool true;
     opt_changeHandlerName := None |}.

(** [(props, handlers) => Object.assign({}, handlers)]: a mapping function
    that returns a new object with the generated handlers in it. *)
Definition copyHandlers (_ : gmap string PropVal) (handlers : option nat) (s : Store)
  : option nat * Store :=
  (Some (next s),
   {| heap := <[next s := objectAssign ∅ (handlers ≫= (λ r, heap s !! r))]> (heap s);
      next := S (next s) |}).

Definition emptyStore : Store := {| heap := ∅; next := 0 |}.

(** Two mounted instances of one wrapped class, each with its own location. *)
Definition twoInstances : gmap nat (gmap string PropVal) :=
  {[ 1 := {[ "location" :=
               PLocation {| loc_query := Some {[ "foo" := VStr "1" ]};
                            loc_search := Some "?foo=1" |} ]};
     2 := {[ "location" :=
               PLocation {| loc_query := Some {[ "foo" := VStr "2" ]};
                            loc_search := Some "?foo=2" |} ]} ]}.

(** Strategy of the examples: [pushIn] pushes, anything else writes in place. *)
Definition stubStrategy (updateType : value) : Strategy :=
  match updateType with
  | VStr "pushIn" => PushEntry
  | _ => ReplaceInPlace
  end.

(** A configuration with an empty prop name. *)
Definition emptyNameConfig : list (string * FieldConfig) :=
  [ ("foo", {| fc_updateType := VUndefined;
               fc_queryParam := None;
               fc_type := VStr "number" |});
    ("", {| fc_updateType := VUndefined;
            fc_queryParam := None;
            fc_type := VStr "string" |}) ].

(** [propName => 'set_' + propName] *)
Definition setName (propName : string) : string := "set_" +:+ propName.

(** Options with a configuration and a naming function of their own. *)
Definition namedOptions (cfg : list (string * FieldConfig)) : Options :=
  {| mapUrlToProps := None;
     mapUrlChangeHandlersToProps := None;
     urlPropsQueryConfig := Some cfg;
     addRouterParams := VUndefined;
     addUrlChangeHandlers := VBool true;
     opt_changeHandlerName := Some setName |}.

(** A global configuration that names handlers with [setName]. *)
Definition namingGlobals : Globals :=
  {| urlQueryConfig :=
       {| history_location := None;
          cfg_addRouterParams := VBool true;
          cfg_addUrlChangeHandlers := VBool true;
          cfg_changeHandlerName := Some setName |};
     window_location := {| loc_query := None; loc_search := None |} |}.

(** A component with an empty [displayName] and a function name. *)
Definition listComponent : Component :=
  {| wc_displayName := Some ""; wc_name := Some "List" |}.

(** * Properties *)

(** ** JavaScript tests *)

Lemma mergingEnabled_routerParamsEnabled (o : Options) (g : Globals) :
  mergingEnabled o g → routerParamsEnabled o g = true.
Proof.
  unfold mergingEnabled, routerParamsEnabled.
  intros [-> | [Hne Hg]]; [done |].
  rewrite Hg. destruct (addRouterParams o) as [| | [|] | |]; simpl; try done.
  all: by rewrite ?orb_true_r.
Qed.

Lemma objectAssign_lookup {V} (target : gmap string V) (source : option (gmap string V))
    (k : string) :
  objectAssign target source !! k
  = match source ≫= (λ s, s !! k) with
    | Some v => Some v
    | None => target !! k
    end.
Proof.
  destruct source as [s |]; simpl; [| done].
  rewrite lookup_union. destruct (s !! k), (target !! k); done.
Qed.

(** ** The query source *)

Section Resolution.
Context {imports : Imports}.

(** C5, as the code has it. The source is the location prop when that prop
    is a location carrying a query; otherwise the external history's
    location when there is one; otherwise the window's location. A source is
    used exactly when no usable source precedes it. *)
Theorem resolveLocation_priority (g : Globals) (props : gmap string PropVal) :
  match resolveLocation g props with
  | (PropSource, l) => usableLocationProp props = Some l
  | (HistorySource, l) =>
      usableLocationProp props = None
      ∧ history_location (urlQueryConfig g) = Some l
  | (WindowSource, l) =>
      usableLocationProp props = None
      ∧ history_location (urlQueryConfig g) = None
      ∧ l = window_location g
  end.
Proof.
  unfold resolveLocation, usableLocationProp.
  destruct (propsLocation props) as [l |]; simpl.
  - destruct (loc_query l) as [q |]; [done |].
    destruct (history_location (urlQueryConfig g)); done.
  - destruct (history_location (urlQueryConfig g)); done.
Qed.

Lemma resolveLocation_unusable (g : Globals) (props : gmap string PropVal) :
  usableLocationProp props = None →
  resolveLocation g props = fallbackLocation g.
Proof.
  unfold usableLocationProp, resolveLocation, fallbackLocation.
  destruct (propsLocation props) as [l |]; simpl; [| done].
  destruct (loc_query l); [done | done].
Qed.

Lemma propsLocation_insert (props : gmap string PropVal) (l : Location) :
  propsLocation (<["location" := PLocation l]> props) = Some l.
Proof. unfold propsLocation. by rewrite lookup_insert_eq. Qed.

Lemma propsParams_insert_location (props : gmap string PropVal) (l : Location) :
  propsParams (<["location" := PLocation l]> props) = propsParams props.
Proof. unfold propsParams. by rewrite lookup_insert_ne. Qed.

Lemma currentQueryOf_parsed (l : Location) (s : option string) :
  s ∈ (currentQueryOf l).2 → s = loc_search l ∧ loc_query l = None.
Proof.
  unfold currentQueryOf. destruct (loc_query l); simpl.
  - by intros ?%elem_of_nil.
  - destruct (parseQueryString (loc_search l)); simpl;
      by intros ->%list_elem_of_singleton.
Qed.

Lemma getUrlObject_parsed (o : Options) (g : Globals) (props : gmap string PropVal) :
  (getUrlObject o g props).2 = (currentQueryOf (resolveLocation g props).2).2.
Proof.
  unfold getUrlObject, urlDerived.
  destruct (resolveLocation g props) as [src l]; simpl.
  destruct (currentQueryOf l) as [q parsed]; simpl.
  destruct (decodeQuery o), (routerParamsEnabled o g); done.
Qed.

(** C10. A location prop without a query is ignored. The source is the
    history's location or else the window's; the url object is built from
    that location, from its query when it has one and otherwise from the
    parse of its search string (decoded when there is a decoder, with the
    router params merged when the merge is enabled); the parser is called on
    that search string or not at all; and the url object is the same
    whatever the search string of the location prop is. *)
Theorem location_prop_without_query_ignored
    (o : Options) (g : Globals) (props : gmap string PropVal) (l : Location) :
  propsLocation props = Some l →
  loc_query l = None →
  let source :=
    match history_location (urlQueryConfig g) with
    | Some hl => hl
    | None => window_location g
    end in
  let raw :=
    match loc_query source with
    | Some q => q
    | None =>
        match parseQueryString (loc_search source) with
        | Some q => q
        | None => ∅
        end
    end in
  let derived :=
    match urlPropsQueryConfig o with
    | Some cfg => urlQueryDecoder cfg raw
    | None => raw
    end in
  resolveLocation g props = fallbackLocation g
  ∧ (fallbackLocation g).2 = source
  ∧ (getUrlObject o g props).1
    = (if routerParamsEnabled o g
       then objectAssign derived (propsParams props)
       else derived)
  ∧ (getUrlObject o g props).2
    = match loc_query source with
      | Some _ => []
      | None => [loc_search source]
      end
  ∧ (∀ s, s ∈ (getUrlObject o g props).2 → s = loc_search (fallbackLocation g).2)
  ∧ (∀ s', getUrlObject o g
             (<["location" := PLocation {| loc_query := None; loc_search := s' |}]> props)
           = getUrlObject o g props).
Proof.
  intros Hl Hq source raw derived.
  assert (Hu : usableLocationProp props = None).
  { unfold usableLocationProp. rewrite Hl. simpl. by rewrite Hq. }
  pose proof (resolveLocation_unusable g props Hu) as Hr.
  assert (Hsrc : fallbackLocation g = ((fallbackLocation g).1, source)).
  { unfold fallbackLocation, source.
    by destruct (history_location (urlQueryConfig g)). }
  assert (Hget : getUrlObject o g props
                 = (if routerParamsEnabled o g
                    then objectAssign derived (propsParams props)
                    else derived,
                    match loc_query source with
                    | Some _ => []
                    | None => [loc_search source]
                    end)).
  { unfold getUrlObject, urlDerived, decodeQuery, currentQueryOf.
    rewrite Hr, Hsrc. unfold derived, raw.
    destruct (loc_query source) as [q |];
      [| destruct (parseQueryString (loc_search source)) as [q |]];
      destruct (urlPropsQueryConfig o) as [cfg |];
      by destruct (routerParamsEnabled o g). }
  split; [done |]. split; [by rewrite Hsrc |].
  split; [by rewrite Hget |]. split; [by rewrite Hget |]. split.
  - intros s. rewrite getUrlObject_parsed, Hr.
    by intros [-> _]%currentQueryOf_parsed.
  - intros s'.
    assert (Hr' : resolveLocation g
              (<["location" := PLocation {| loc_query := None; loc_search := s' |}]> props)
            = fallbackLocation g).
    { apply resolveLocation_unusable. unfold usableLocationProp.
      by rewrite propsLocation_insert. }
    unfold getUrlObject, urlDerived.
    by rewrite Hr, Hr', propsParams_insert_location.
Qed.

(** ** Router params and the raw query *)

(** C1, as the code has it. When the merge is enabled, every router param
    is in the url object with the router's value, also under a key the URL
    gave a value to; the other keys keep their URL-derived value. *)
Theorem router_params_override
    (o : Options) (g : Globals) (props : gmap string PropVal)
    (params : gmap string value) (k : string) :
  mergingEnabled o g →
  propsParams props = Some params →
  (getUrlObject o g props).1 !! k
  = match params !! k with
    | Some v => Some v
    | None => (urlDerived o g props).1 !! k
    end.
Proof.
  intros Hen%mergingEnabled_routerParamsEnabled Hp.
  unfold getUrlObject. destruct (urlDerived o g props) as [result parsed].
  rewrite Hen, Hp. cbn [fst]. by rewrite objectAssign_lookup.
Qed.

Lemma urlDerived_no_config (o : Options) (g : Globals) (props : gmap string PropVal) :
  urlPropsQueryConfig o = None →
  urlDerived o g props = currentQueryOf (resolveLocation g props).2.
Proof.
  intros Hc. unfold urlDerived, decodeQuery. rewrite Hc.
  destruct (resolveLocation g props) as [src l]; simpl.
  by destruct (currentQueryOf l).
Qed.

(** C6, as the code has it. Without a configuration nothing is decoded or
    renamed: the url object is the raw parsed query, with the router params
    written over it when the merge is enabled. So it is the raw query itself
    when the merge is off, and every key that is not a router param has its
    raw value in any case. *)
Theorem raw_query_passes_through
    (o : Options) (g : Globals) (props : gmap string PropVal) :
  urlPropsQueryConfig o = None →
  let raw := (currentQueryOf (resolveLocation g props).2).1 in
  let url := (getUrlObject o g props).1 in
  url = (if routerParamsEnabled o g then objectAssign raw (propsParams props) else raw)
  ∧ (routerParamsEnabled o g = false → url = raw)
  ∧ (∀ k, (propsParams props ≫= (λ ps, ps !! k)) = None → url !! k = raw !! k).
Proof.
  intros Hc raw url.
  assert (Hurl : url = if routerParamsEnabled o g
                       then objectAssign raw (propsParams props) else raw).
  { unfold url, raw, getUrlObject. rewrite (urlDerived_no_config o g props Hc).
    destruct (currentQueryOf (resolveLocation g props).2) as [q parsed].
    by destruct (routerParamsEnabled o g). }
  split; [done |]. split.
  - intros Hoff. by rewrite Hurl, Hoff.
  - intros k Hk. rewrite Hurl.
    destruct (routerParamsEnabled o g); [| done].
    by rewrite objectAssign_lookup, Hk.
Qed.

End Resolution.

(** ** Handler names *)

Lemma substring_all (s : string) : String.substring 0 (String.length s) s = s.
Proof. induction s as [| c s IH]; simpl; [done | by rewrite IH]. Qed.

Lemma substring1_cons (c : ascii) (rest : string) : substring1 (String c rest) = rest.
Proof.
  unfold substring1. simpl. rewrite Nat.sub_0_r. apply substring_all.
Qed.

Lemma defaultChangeHandlerName_cons (c : ascii) (rest : string) :
  defaultChangeHandlerName (String c rest)
  = Ok ("onChange" +:+ String (toUpperCaseChar c) rest).
Proof.
  unfold defaultChangeHandlerName. cbn [String.get].
  by rewrite substring1_cons.
Qed.

Lemma defaultChangeHandlerName_empty : defaultChangeHandlerName "" = TypeError.
Proof. reflexivity. Qed.

Example defaultChangeHandlerName_foo : defaultChangeHandlerName "foo" = Ok "onChangeFoo".
Proof. reflexivity. Qed.

(** ** The [reduce] that builds the handler set *)

Lemma handlerOf_succ (this n i : nat) (pf : string * FieldConfig) :
  handlerOf this (S n) i pf = handlerOf this n (S i) pf.
Proof. unfold handlerOf. f_equal. lia. Qed.

(** When the naming function returns for every field, the [reduce] returns:
    keys that are no handler name keep what the accumulator had, and a
    handler name holds the handler of the last field that has this name. *)
Lemma reduceHandlers_spec (this : nat) (name : NameFn)
    (cfg : list (string * FieldConfig)) :
  ∀ (names : list string) (acc : gmap string PropVal) (n : nat),
    handlerNames name cfg = Ok <$> names →
    ∃ hs,
      reduceHandlers this name cfg acc n = Ok (hs, n + length cfg)
      ∧ (∀ k, k ∉ names → hs !! k = acc !! k)
      ∧ (∀ k, k ∈ names →
           ∃ i pf, cfg !! i = Some pf ∧ names !! i = Some k
                   ∧ hs !! k = Some (PHandler (handlerOf this n i pf))
                   ∧ ∀ j, i < j → names !! j ≠ Some k).
Proof.
  induction cfg as [| [p fc] cfg IH]; intros names acc n Hn.
  - destruct names; [| done]. exists acc. simpl.
    rewrite Nat.add_0_r. split; [done |]. split; [done |].
    by intros k ?%elem_of_nil.
  - destruct names as [| hn names]; [done |].
    simpl in Hn. injection Hn as Hhn Hrest.
    destruct (IH names (<[hn := PHandler (handlerOf this n 0 (p, fc))]> acc) (S n) Hrest)
      as (hs & Hred & Hout & Hin).
    exists hs. split; [| split].
    + simpl. rewrite Hhn.
      replace (n + S (length cfg)) with (S n + length cfg) by lia.
      rewrite <- Hred. unfold handlerOf. simpl. by rewrite Nat.add_0_r.
    + intros k Hk. apply not_elem_of_cons in Hk as [Hne Hk].
      rewrite (Hout k Hk). by rewrite lookup_insert_ne.
    + intros k Hk.
      destruct (decide (k ∈ names)) as [Hkn | Hkn].
      * destruct (Hin k Hkn) as (i & pf & Hc & Hi & Hl & Hlast).
        exists (S i), pf. rewrite <- handlerOf_succ.
        repeat split; try done.
        intros [| j] Hj; [lia |]. simpl. apply Hlast. lia.
      * apply elem_of_cons in Hk as [-> | Hk]; [| done].
        exists 0, (p, fc). repeat split; try done.
        -- rewrite (Hout hn Hkn). by rewrite lookup_insert_eq.
        -- intros [| j] Hj; [lia |]. simpl. intros Hj'.
           apply Hkn. by eapply list_elem_of_lookup_2.
Qed.

(** A naming function that raises for some field makes the [reduce] raise. *)
Lemma reduceHandlers_raises (this : nat) (name : NameFn)
    (cfg : list (string * FieldConfig)) :
  ∀ (acc : gmap string PropVal) (n : nat),
    TypeError ∈ handlerNames name cfg →
    reduceHandlers this name cfg acc n = TypeError.
Proof.
  induction cfg as [| [p fc] cfg IH]; intros acc n Hin; simpl in *.
  - by apply elem_of_nil in Hin.
  - destruct (callName name p) as [hn |]; [| done].
    apply elem_of_cons in Hin as [Hin | Hin]; [done |]. by apply IH.
Qed.

(** ** Generation and the cache *)

Section Handlers.
Context {imports : Imports}.

(** The first generation: the set is allocated at the next free reference,
    cached, and filled by the [reduce]. *)
Lemma generateHandlers_miss (o : Options) (g : Globals) (this : nat) (st : State)
    (cfg : list (string * FieldConfig)) (names : list string) :
  urlPropsQueryConfig o = Some cfg →
  handlersEnabled o g = true →
  cachedHandlers st = None →
  handlerNames (resolveName st g) cfg = Ok <$> names →
  ∃ hs,
    generateHandlers o g this st
    = (Ok (Some (next (store st))),
       {| changeHandlerName := Some (resolveName st g);
          cachedHandlers := Some (next (store st));
          store := {| heap := <[next (store st) := hs]> (heap (store st));
                      next := S (next (store st)) + length cfg |} |})
    ∧ reduceHandlers this (resolveName st g) cfg ∅ (S (next (store st)))
      = Ok (hs, S (next (store st)) + length cfg).
Proof.
  intros Hc Hen Hcache Hn.
  destruct (reduceHandlers_spec this (resolveName st g) cfg names ∅
              (S (next (store st))) Hn) as (hs & Hred & _).
  exists hs. split; [| done].
  unfold generateHandlers. by rewrite Hc, Hen, Hcache, Hred.
Qed.

(** A later generation step: the cached reference, nothing allocated. *)
Lemma generateHandlers_hit (o : Options) (g : Globals) (this : nat) (st : State)
    (cfg : list (string * FieldConfig)) (r : nat) :
  urlPropsQueryConfig o = Some cfg →
  handlersEnabled o g = true →
  cachedHandlers st = Some r →
  generateHandlers o g this st = (Ok (Some r), st).
Proof.
  intros Hc Hen Hcache. unfold generateHandlers. by rewrite Hc, Hen, Hcache.
Qed.

(** A generation step that returns leaves its result in the cache. *)
Lemma generateHandlers_caches (o : Options) (g : Globals) (this : nat) (st st1 : State)
    (cfg : list (string * FieldConfig)) (res : option nat) :
  urlPropsQueryConfig o = Some cfg →
  handlersEnabled o g = true →
  generateHandlers o g this st = (Ok res, st1) →
  ∃ r, res = Some r ∧ cachedHandlers st1 = Some r.
Proof.
  intros Hc Hen. unfold generateHandlers. rewrite Hc, Hen.
  destruct (cachedHandlers st) as [r |] eqn:Hcache.
  - intros [= <- <-]. by exists r.
  - destruct (reduceHandlers _ _ _ _ _) as [[hs n] |]; [| done].
    intros [= <- <-]. by eexists.
Qed.

(** The method never writes the cache after the generation step. *)
Lemma getUrlChangeHandlerProps_cache (o : Options) (g : Globals) (this : nat)
    (pw : gmap string PropVal) (st : State) :
  cachedHandlers (getUrlChangeHandlerProps o g this pw st).2
  = cachedHandlers (generateHandlers o g this st).2.
Proof.
  unfold getUrlChangeHandlerProps.
  destruct (generateHandlers o g this st) as [[res |] st1]; [| done].
  destruct (mapUrlChangeHandlersToProps o) as [f |]; [| done].
  by destruct (f pw res (store st1)).
Qed.

Lemma getUrlChangeHandlerProps_keeps (o : Options) (g : Globals) (this : nat)
    (pw : gmap string PropVal) (st : State)
    (cfg : list (string * FieldConfig)) (r : nat) :
  urlPropsQueryConfig o = Some cfg →
  handlersEnabled o g = true →
  cachedHandlers st = Some r →
  cachedHandlers (getUrlChangeHandlerProps o g this pw st).2 = Some r.
Proof.
  intros Hc Hen Hcache.
  by rewrite getUrlChangeHandlerProps_cache,
    (generateHandlers_hit o g this st cfg r Hc Hen Hcache).
Qed.

Lemma calls_keep (o : Options) (g : Globals) (cfg : list (string * FieldConfig))
    (r : nat) (args : list (nat * gmap string PropVal)) :
  urlPropsQueryConfig o = Some cfg →
  handlersEnabled o g = true →
  ∀ st, cachedHandlers st = Some r → cachedHandlers (calls o g args st).2 = Some r.
Proof.
  intros Hc Hen. induction args as [| [this pw] args IH]; intros st Hcache; [done |].
  simpl.
  pose proof (getUrlChangeHandlerProps_keeps o g this pw st cfg r Hc Hen Hcache) as Hk.
  destruct (getUrlChangeHandlerProps o g this pw st) as [res st1].
  specialize (IH st1 Hk).
  by destruct (calls o g args st1).
Qed.

Lemma getUrlChangeHandlerProps_hit (o : Options) (g : Globals) (this : nat)
    (pw : gmap string PropVal) (st : State)
    (cfg : list (string * FieldConfig)) (r : nat) :
  urlPropsQueryConfig o = Some cfg →
  handlersEnabled o g = true →
  mapUrlChangeHandlersToProps o = None →
  cachedHandlers st = Some r →
  getUrlChangeHandlerProps o g this pw st = (Ok (Some r), st).
Proof.
  intros Hc Hen Hmap Hcache. unfold getUrlChangeHandlerProps.
  by rewrite (generateHandlers_hit o g this st cfg r Hc Hen Hcache), Hmap.
Qed.

Lemma calls_hit (o : Options) (g : Globals) (cfg : list (string * FieldConfig))
    (r : nat) (st : State) (args : list (nat * gmap string PropVal)) :
  urlPropsQueryConfig o = Some cfg →
  handlersEnabled o g = true →
  mapUrlChangeHandlersToProps o = None →
  cachedHandlers st = Some r →
  calls o g args st = ((λ _, Ok (Some r)) <$> args, st).
Proof.
  intros Hc Hen Hmap Hcache.
  induction args as [| [this pw] args IH]; [done |]. simpl.
  by rewrite (getUrlChangeHandlerProps_hit o g this pw st cfg r Hc Hen Hmap Hcache), IH.
Qed.

Lemma getUrlChangeHandlerProps_hit_mapped (o : Options) (g : Globals) (this : nat)
    (pw : gmap string PropVal) (st : State)
    (cfg : list (string * FieldConfig)) (r : nat)
    (f : gmap string PropVal -> option nat -> Store -> option nat * Store) :
  urlPropsQueryConfig o = Some cfg →
  handlersEnabled o g = true →
  mapUrlChangeHandlersToProps o = Some f →
  cachedHandlers st = Some r →
  getUrlChangeHandlerProps o g this pw st
  = (Ok (f pw (Some r) (store st)).1,
     {| changeHandlerName := changeHandlerName st;
        cachedHandlers := Some r;
        store := (f pw (Some r) (store st)).2 |}).
Proof.
  intros Hc Hen Hmap Hcache. unfold getUrlChangeHandlerProps.
  rewrite (generateHandlers_hit o g this st cfg r Hc Hen Hcache), Hmap, Hcache.
  by destruct (f pw (Some r) (store st)).
Qed.

(** C3, as the code has it. Once a call has returned, the generated handler
    set is the cached object for good: the generation step of every later
    call, by any instance and after any calls in between, yields that same
    object and builds nothing. Without [mapUrlChangeHandlersToProps] that
    object is what the first and every later call returns, and the store is
    left as it was. With a mapping function [f], the first and every later
    call hand [f] the props and that same object, and return what [f]
    returns for them, with the store as [f] leaves it. *)
Theorem cached_handlers_reused (o : Options) (g : Globals)
    (cfg : list (string * FieldConfig)) (this : nat) (pw : gmap string PropVal)
    (st st1 : State) (res : option nat) :
  urlPropsQueryConfig o = Some cfg →
  handlersEnabled o g = true →
  getUrlChangeHandlerProps o g this pw st = (Ok res, st1) →
  ∃ r,
    cachedHandlers st1 = Some r
    ∧ (∀ args this',
         generateHandlers o g this' (calls o g args st1).2
         = (Ok (Some r), (calls o g args st1).2))
    ∧ (mapUrlChangeHandlersToProps o = None →
       res = Some r
       ∧ ∀ args, calls o g args st1 = ((λ _, Ok (Some r)) <$> args, st1))
    ∧ (∀ f, mapUrlChangeHandlersToProps o = Some f →
         (res, store st1)
         = f pw (Some r) (store (generateHandlers o g this st).2)
         ∧ ∀ args this' pw',
             getUrlChangeHandlerProps o g this' pw' (calls o g args st1).2
             = (Ok (f pw' (Some r) (store (calls o g args st1).2)).1,
                {| changeHandlerName := changeHandlerName (calls o g args st1).2;
                   cachedHandlers := Some r;
                   store := (f pw' (Some r) (store (calls o g args st1).2)).2 |})).
Proof.
  intros Hc Hen Hcall.
  assert (Hgen : ∃ r, cachedHandlers st1 = Some r
                      ∧ (mapUrlChangeHandlersToProps o = None → res = Some r)
                      ∧ (∀ f, mapUrlChangeHandlersToProps o = Some f →
                           (res, store st1)
                           = f pw (Some r) (store (generateHandlers o g this st).2))).
  { pose proof (getUrlChangeHandlerProps_cache o g this pw st) as Hk.
    rewrite Hcall in Hk. simpl in Hk.
    unfold getUrlChangeHandlerProps in Hcall.
    destruct (generateHandlers o g this st) as [[res0 |] st0] eqn:Hg; [| done].
    destruct (generateHandlers_caches o g this st st0 cfg res0 Hc Hen Hg)
      as (r & -> & Hr).
    exists r. simpl in Hk. split; [congruence |]. split.
    - intros Hmap. rewrite Hmap in Hcall. by injection Hcall as <- _.
    - intros f Hmap. rewrite Hmap in Hcall. simpl.
      destruct (f pw (Some r) (store st0)) as [mapped s2].
      by injection Hcall as <- <-. }
  destruct Hgen as (r & Hr & Hres & Hmapped). exists r.
  split; [done |]. split; [| split].
  - intros args this'. apply (generateHandlers_hit o g this' _ cfg r Hc Hen).
    by apply (calls_keep o g cfg r args Hc Hen).
  - intros Hmap. split; [by apply Hres |].
    intros args. by apply (calls_hit o g cfg r st1 args Hc Hen Hmap).
  - intros f Hmap. split; [by apply Hmapped |].
    intros args this' pw'.
    apply (getUrlChangeHandlerProps_hit_mapped o g this' pw' _ cfg r f Hc Hen Hmap).
    by apply (calls_keep o g cfg r args Hc Hen).
Qed.

End Handlers.

(** ** What is generated, and what a handler does *)

Section Generated.
Context {imports : Imports}.

Lemma handlerNames_length (name : NameFn) (cfg : list (string * FieldConfig))
    (names : list string) :
  handlerNames name cfg = Ok <$> names → length names = length cfg.
Proof.
  intros Hn. apply (f_equal length) in Hn.
  unfold handlerNames in Hn. by rewrite length_map, length_fmap in Hn.
Qed.

(** The call a generated handler makes, for the handler of field [pf]. *)
Lemma generatedUrlChangeHandler_handlerOf (this n i : nat) (pf : string * FieldConfig)
    (instances : gmap nat (gmap string PropVal)) (v : value) :
  generatedUrlChangeHandler (handlerOf this n i pf) instances v
  = {| uc_updateType := fc_updateType pf.2;
       uc_queryParam := default pf.1 (fc_queryParam pf.2);
       uc_encodedValue := encode (fc_type pf.2) v;
       uc_location := instances !! this ≫= (λ props, props !! "location") |}.
Proof. reflexivity. Qed.

(** The generated set, on a first generation whose naming function returns
    for every field. *)
Lemma generated_set (o : Options) (g : Globals) (this : nat) (st : State)
    (cfg : list (string * FieldConfig)) (names : list string) :
  urlPropsQueryConfig o = Some cfg →
  handlersEnabled o g = true →
  cachedHandlers st = None →
  handlerNames (resolveName st g) cfg = Ok <$> names →
  ∃ hs st1,
    generateHandlers o g this st = (Ok (Some (next (store st))), st1)
    ∧ cachedHandlers st1 = Some (next (store st))
    ∧ heap (store st1) !! next (store st) = Some hs
    ∧ (∀ k, k ∉ names → hs !! k = None)
    ∧ (∀ k, k ∈ names →
         ∃ i pf, cfg !! i = Some pf ∧ names !! i = Some k
                 ∧ hs !! k = Some (PHandler (handlerOf this (S (next (store st))) i pf))
                 ∧ ∀ j, i < j → names !! j ≠ Some k).
Proof.
  intros Hc Hen Hcache Hn.
  destruct (reduceHandlers_spec this (resolveName st g) cfg names ∅
              (S (next (store st))) Hn) as (hs & Hred & Hout & Hin).
  exists hs. eexists. split; [| split; [| split; [| split]]].
  - unfold generateHandlers. by rewrite Hc, Hen, Hcache, Hred.
  - done.
  - simpl. by rewrite lookup_insert_eq.
  - intros k Hk. by rewrite (Hout k Hk).
  - done.
Qed.

(** C4, as the code has it. On the first generation there is one handler
    prop per distinct handler name: the props are exactly the names of the
    configured fields, as many as there are fields when the names are
    pairwise distinct. The prop named after field [f] holds the handler of
    the last field with that name, so [f]'s own when no later field shares
    its name; called with [v], that handler calls [updateUrlQuerySingle] with
    the field's [updateType], its [queryParam] or else the prop name,
    [encode(type, v)] and the [location] prop of the bound instance. *)
Theorem one_handler_per_name (o : Options) (g : Globals) (this : nat) (st : State)
    (cfg : list (string * FieldConfig)) (names : list string) :
  urlPropsQueryConfig o = Some cfg →
  handlersEnabled o g = true →
  cachedHandlers st = None →
  handlerNames (resolveName st g) cfg = Ok <$> names →
  ∃ hs st1,
    generateHandlers o g this st = (Ok (Some (next (store st))), st1)
    ∧ heap (store st1) !! next (store st) = Some hs
    ∧ dom hs = list_to_set names
    ∧ (NoDup names → size hs = length cfg)
    ∧ ∀ i pf hn,
        cfg !! i = Some pf →
        names !! i = Some hn →
        (∀ j, i < j → names !! j ≠ Some hn) →
        ∃ h,
          hs !! hn = Some (PHandler h)
          ∧ ∀ instances v,
              generatedUrlChangeHandler h instances v
              = {| uc_updateType := fc_updateType pf.2;
                   uc_queryParam := default pf.1 (fc_queryParam pf.2);
                   uc_encodedValue := encode (fc_type pf.2) v;
                   uc_location := instances !! this ≫= (λ props, props !! "location") |}.
Proof.
  intros Hc Hen Hcache Hn.
  destruct (generated_set o g this st cfg names Hc Hen Hcache Hn)
    as (hs & st1 & Hgen & _ & Hheap & Hout & Hin).
  assert (Hdom : dom hs = list_to_set names).
  { apply set_eq. intros k. rewrite elem_of_dom, elem_of_list_to_set.
    split.
    - intros Hs. destruct (decide (k ∈ names)) as [| Hk]; [done |].
      rewrite (Hout k Hk) in Hs. by destruct Hs.
    - intros Hk. destruct (Hin k Hk) as (i & pf & _ & _ & -> & _). by eexists. }
  exists hs, st1. split; [done |]. split; [done |]. split; [done |]. split.
  - intros Hnd. rewrite <- size_dom, Hdom, size_list_to_set by done.
    by apply (handlerNames_length (resolveName st g)).
  - intros i pf hn Hi Hni Hlast.
    assert (Hk : hn ∈ names) by by eapply list_elem_of_lookup_2.
    destruct (Hin hn Hk) as (i' & pf' & Hi' & Hni' & Hl & Hlast').
    assert (i' = i) as ->.
    { destruct (Nat.lt_trichotomy i i') as [Hlt | [-> | Hlt]]; [| done |].
      - by destruct (Hlast i' Hlt).
      - by destruct (Hlast' i Hlt). }
    assert (pf' = pf) as -> by congruence.
    eexists. split; [exact Hl |].
    intros instances v. apply generatedUrlChangeHandler_handlerOf.
Qed.

(** The names the default naming function gives to non-empty prop names. *)
Lemma handlerNames_default (cfg : list (string * FieldConfig)) :
  Forall (λ pf, pf.1 ≠ "") cfg →
  ∃ names, handlerNames DefaultName cfg = Ok <$> names
           ∧ ∀ i c rest fc, cfg !! i = Some (String c rest, fc) →
               names !! i = Some ("onChange" +:+ String (toUpperCaseChar c) rest).
Proof.
  induction 1 as [| [p fc] cfg Hp _ (names & Hn & Hi)].
  - exists []. split; [done |]. by intros i.
  - destruct p as [| c rest]; [done |].
    exists (("onChange" +:+ String (toUpperCaseChar c) rest) :: names). split.
    + change (handlerNames DefaultName ((String c rest, fc) :: cfg))
        with (defaultChangeHandlerName (String c rest) :: handlerNames DefaultName cfg).
      by rewrite defaultChangeHandlerName_cons, Hn.
    + intros [| i] c' rest' fc' Hl.
      * by injection Hl as -> -> _.
      * by apply (Hi i c' rest' fc').
Qed.

(** On every character the model's [toUpperCase] is the upper-casing of
    ASCII: a-z to A-Z, nothing else changed. *)
Lemma toUpperCaseChar_upperCased (c : ascii) : toUpperCaseChar c = upperCased c.
Proof. destruct c as [[] [] [] [] [] [] [] []]; reflexivity. Qed.

Lemma asciiInitial_nonempty (cfg : list (string * FieldConfig)) :
  Forall (λ pf, asciiInitial pf.1) cfg → Forall (λ pf, pf.1 ≠ "") cfg.
Proof.
  intros Hall. eapply Forall_impl; [exact Hall |].
  intros pf (c & rest & -> & _). done.
Qed.

(** C7, as the code has it. The default naming function is in force when
    the closure holds it already, or holds none while the global
    configuration has none. Then, on a first generation:
    - when every configured prop name has an ASCII first character, the
      generation returns, every configured prop name [p] has a handler prop
      named ["onChange"] followed by [p] with its first character
      upper-cased (a-z to A-Z), and the set has no other props;
    - when some configured prop name is empty, the generation raises and no
      handler prop is generated for any field. *)
Theorem default_handler_names (o : Options) (g : Globals) (this : nat) (st : State)
    (cfg : list (string * FieldConfig)) :
  urlPropsQueryConfig o = Some cfg →
  handlersEnabled o g = true →
  changeHandlerName st = Some DefaultName
  ∨ (changeHandlerName st = None ∧ cfg_changeHandlerName (urlQueryConfig g) = None) →
  cachedHandlers st = None →
  (Forall (λ pf, asciiInitial pf.1) cfg →
   ∃ hs st1,
     generateHandlers o g this st = (Ok (Some (next (store st))), st1)
     ∧ heap (store st1) !! next (store st) = Some hs
     ∧ (∀ c rest fc, (String c rest, fc) ∈ cfg →
          ∃ h, hs !! ("onChange" +:+ String (upperCased c) rest) = Some (PHandler h))
     ∧ (∀ k, is_Some (hs !! k) →
          ∃ c rest fc, (String c rest, fc) ∈ cfg
                       ∧ k = "onChange" +:+ String (upperCased c) rest))
  ∧ (∀ fc, ("", fc) ∈ cfg →
       ∃ st1,
         generateHandlers o g this st = (TypeError, st1)
         ∧ cachedHandlers st1 = None
         ∧ store st1 = store st).
Proof.
  intros Hc Hen Hstate Hcache.
  assert (Hname : resolveName st g = DefaultName).
  { unfold resolveName. by destruct Hstate as [-> | [-> ->]]. }
  split.
  - intros Hne%asciiInitial_nonempty.
    destruct (handlerNames_default cfg Hne) as (names & Hn & Hnames).
    destruct (generated_set o g this st cfg names Hc Hen Hcache)
      as (hs & st1 & Hgen & _ & Hheap & Hout & Hin); [by rewrite Hname |].
    exists hs, st1. split; [done |]. split; [done |]. split.
    + intros c rest fc [i Hi]%list_elem_of_lookup_1.
      pose proof (Hnames i c rest fc Hi) as Hni.
      rewrite toUpperCaseChar_upperCased in Hni.
      destruct (Hin _ (list_elem_of_lookup_2 _ _ _ Hni)) as (j & pf & _ & _ & -> & _).
      by eexists.
    + intros k Hk. destruct (decide (k ∈ names)) as [Hkn | Hkn].
      * destruct (Hin k Hkn) as (i & [p fc] & Hi & Hni & _).
        pose proof (Forall_lookup_1 _ _ _ _ Hne Hi) as Hp. simpl in Hp.
        destruct p as [| c rest]; [done |].
        exists c, rest, fc. split; [by eapply list_elem_of_lookup_2 |].
        rewrite (Hnames i c rest fc Hi), toUpperCaseChar_upperCased in Hni.
        by injection Hni.
      * rewrite (Hout k Hkn) in Hk. by destruct Hk.
  - intros fc Hin.
    assert (Hraise : TypeError ∈ handlerNames DefaultName cfg).
    { unfold handlerNames. apply list_elem_of_fmap. by exists ("", fc). }
    eexists. split.
    + unfold generateHandlers. rewrite Hc, Hen, Hcache, Hname.
      by rewrite (reduceHandlers_raises this DefaultName cfg ∅ _ Hraise).
    + done.
Qed.

End Generated.

(** ** Instances, missing configuration, the URL update *)

Section Instances.
Context {imports : Imports}.

(** Every handler of a freshly generated set is the handler of a configured
    field, bound to the instance whose call generated the set. *)
Lemma generated_handler_origin (o : Options) (g : Globals) (this : nat) (st st1 : State)
    (cfg : list (string * FieldConfig)) (names : list string)
    (hs : gmap string PropVal) (hn : string) (h : Handler) :
  urlPropsQueryConfig o = Some cfg →
  handlersEnabled o g = true →
  cachedHandlers st = None →
  handlerNames (resolveName st g) cfg = Ok <$> names →
  generateHandlers o g this st = (Ok (Some (next (store st))), st1) →
  heap (store st1) !! next (store st) = Some hs →
  hs !! hn = Some (PHandler h) →
  ∃ i pf, cfg !! i = Some pf ∧ h = handlerOf this (S (next (store st))) i pf.
Proof.
  intros Hc Hen Hcache Hn Hgen Hheap Hh.
  destruct (generated_set o g this st cfg names Hc Hen Hcache Hn)
    as (hs' & st1' & Hgen' & _ & Hheap' & Hout & Hin).
  rewrite Hgen in Hgen'. injection Hgen' as <-.
  rewrite Hheap in Hheap'. injection Hheap' as <-.
  destruct (decide (hn ∈ names)) as [Hk | Hk].
  - destruct (Hin hn Hk) as (i & pf & Hi & _ & Hl & _).
    exists i, pf. split; [done |]. congruence.
  - rewrite (Hout hn Hk) in Hh. done.
Qed.

(** The props of a freshly generated set are the handler names. *)
Lemma generated_set_dom (o : Options) (g : Globals) (this : nat) (st : State)
    (cfg : list (string * FieldConfig)) (names : list string) :
  urlPropsQueryConfig o = Some cfg →
  handlersEnabled o g = true →
  cachedHandlers st = None →
  handlerNames (resolveName st g) cfg = Ok <$> names →
  ∃ hs st1,
    generateHandlers o g this st = (Ok (Some (next (store st))), st1)
    ∧ heap (store st1) !! next (store st) = Some hs
    ∧ dom hs = list_to_set names.
Proof.
  intros Hc Hen Hcache Hn.
  destruct (generated_set o g this st cfg names Hc Hen Hcache Hn)
    as (hs & st1 & Hgen & _ & Hheap & Hout & Hin).
  exists hs, st1. split; [done |]. split; [done |].
  apply set_eq. intros k. rewrite elem_of_dom, elem_of_list_to_set. split.
  - intros Hs. destruct (decide (k ∈ names)) as [| Hk]; [done |].
    rewrite (Hout k Hk) in Hs. by destruct Hs.
  - intros Hk. destruct (Hin k Hk) as (i & pf & _ & _ & -> & _). by eexists.
Qed.

(** C2, what the code does. [cachedHandlers] belongs to the wrapped class:
    after instance [i] has generated the set, a call by any instance [j]
    returns that very set and builds nothing, and every handler in it is
    bound to [i], so that it passes the [location] prop of [i] to
    [updateUrlQuerySingle] whoever calls it. *)
Theorem handlers_shared_between_instances (o : Options) (g : Globals)
    (cfg : list (string * FieldConfig)) (names : list string)
    (i j : nat) (pw_i pw_j : gmap string PropVal) (st : State) :
  urlPropsQueryConfig o = Some cfg →
  handlersEnabled o g = true →
  mapUrlChangeHandlersToProps o = None →
  cachedHandlers st = None →
  handlerNames (resolveName st g) cfg = Ok <$> names →
  ∃ r hs st1,
    getUrlChangeHandlerProps o g i pw_i st = (Ok (Some r), st1)
    ∧ getUrlChangeHandlerProps o g j pw_j st1 = (Ok (Some r), st1)
    ∧ heap (store st1) !! r = Some hs
    ∧ dom hs = list_to_set names
    ∧ ∀ hn h, hs !! hn = Some (PHandler h) →
        h_this h = i
        ∧ ∀ instances v,
            uc_location (generatedUrlChangeHandler h instances v)
            = instances !! i ≫= (λ props, props !! "location").
Proof.
  intros Hc Hen Hmap Hcache Hn.
  destruct (generated_set_dom o g i st cfg names Hc Hen Hcache Hn)
    as (hs & st1 & Hgen & Hheap & Hdom).
  assert (Hcached : cachedHandlers st1 = Some (next (store st))).
  { by destruct (generateHandlers_caches o g i st st1 cfg _ Hc Hen Hgen)
      as (r & [= <-] & ?). }
  exists (next (store st)), hs, st1. split; [| split; [| split; [| split]]].
  - unfold getUrlChangeHandlerProps. by rewrite Hgen, Hmap.
  - by apply (getUrlChangeHandlerProps_hit o g j pw_j st1 cfg).
  - done.
  - done.
  - intros hn h Hh.
    destruct (generated_handler_origin o g i st st1 cfg names hs hn h
                Hc Hen Hcache Hn Hgen Hheap Hh) as (k & pf & _ & ->).
    split; [done |]. by intros instances v.
Qed.

(** C8. Without a configuration no decoder is built and the query is taken
    as parsed, the generation step yields [undefined] and leaves the state
    alone, the method returns [undefined] or, when there is a mapping
    function, what that function returns for [undefined]; [render] returns
    and the cache stays as it was. *)
Theorem no_config_no_handlers (o : Options) (g : Globals) (this : nat)
    (props pw : gmap string PropVal) (st : State) :
  urlPropsQueryConfig o = None →
  decodeQuery o = None
  ∧ urlDerived o g props = currentQueryOf (resolveLocation g props).2
  ∧ generateHandlers o g this st = (Ok None, st)
  ∧ getUrlChangeHandlerProps o g this pw st
    = match mapUrlChangeHandlersToProps o with
      | Some f =>
          (Ok (f pw None (store st)).1,
           {| changeHandlerName := changeHandlerName st;
              cachedHandlers := cachedHandlers st;
              store := (f pw None (store st)).2 |})
      | None => (Ok None, st)
      end
  ∧ ∃ out st1,
      render o g this props st = (Ok out, st1)
      ∧ changeHandlerName st1 = changeHandlerName st
      ∧ cachedHandlers st1 = cachedHandlers st
      ∧ (mapUrlChangeHandlersToProps o = None →
         st1 = st
         ∧ out = match mapUrlToProps o with
                 | Some f => f (getUrlObject o g props).1 props
                 | None => PVal <$> (getUrlObject o g props).1
                 end ∪ (props ∪ ∅)).
Proof.
  intros Hc.
  assert (Hgen : generateHandlers o g this st = (Ok None, st)).
  { unfold generateHandlers. by rewrite Hc. }
  assert (Hget : ∀ pw', getUrlChangeHandlerProps o g this pw' st
            = match mapUrlChangeHandlersToProps o with
              | Some f =>
                  (Ok (f pw' None (store st)).1,
                   {| changeHandlerName := changeHandlerName st;
                      cachedHandlers := cachedHandlers st;
                      store := (f pw' None (store st)).2 |})
              | None => (Ok None, st)
              end).
  { intros pw'. unfold getUrlChangeHandlerProps. rewrite Hgen.
    destruct (mapUrlChangeHandlersToProps o) as [f |]; [| done].
    by destruct (f pw' None (store st)). }
  split; [unfold decodeQuery; by rewrite Hc |].
  split; [by apply urlDerived_no_config |].
  split; [done |]. split; [apply Hget |].
  unfold render. destruct (getUrlObject o g props) as [url parsed]. simpl.
  rewrite Hget.
  destruct (mapUrlChangeHandlersToProps o) as [f |].
  - eexists _, _. split; [done |]. by repeat split.
  - eexists _, _. split; [done |]. by repeat split.
Qed.

(** The effect of the call a handler of field [pf] makes, on the URL as the
    spec's update function writes it. *)
Lemma handlerOf_writes_its_field (strategyOf : value -> Strategy)
    (this n i : nat) (pf : string * FieldConfig)
    (instances : gmap nat (gmap string PropVal)) (v : value) (u : UrlState) :
  let u' := updateUrlQuerySingle strategyOf
              (generatedUrlChangeHandler (handlerOf this n i pf) instances v) u in
  current u' !! default pf.1 (fc_queryParam pf.2) = Some (encode (fc_type pf.2) v)
  ∧ (∀ k, k ≠ default pf.1 (fc_queryParam pf.2) → current u' !! k = current u !! k)
  ∧ entries u' = match strategyOf (fc_updateType pf.2) with
                 | ReplaceInPlace => entries u
                 | PushEntry => current u :: entries u
                 end.
Proof.
  intros u'. unfold u', updateUrlQuerySingle.
  rewrite generatedUrlChangeHandler_handlerOf. cbn [uc_updateType uc_queryParam
    uc_encodedValue].
  destruct (strategyOf (fc_updateType pf.2)); cbn [current entries].
  - split; [by rewrite lookup_insert_eq |]. split; [| done].
    intros k Hk. by rewrite lookup_insert_ne.
  - split; [by rewrite lookup_insert_eq |]. split; [| done].
    intros k Hk. by rewrite lookup_insert_ne.
Qed.

(** C9, against the update function as the spec describes it. In a freshly
    generated set, the handler found under a name is the handler of a
    configured field with that name, the last one, and the handler of field
    [f] is found under [f]'s name unless a later field shares it. Calling the
    handler of [f] writes the query field named by [f]'s [queryParam], or by
    the prop name [f] when it has none: after the call that field holds the
    value encoded by [f]'s type, every other field of the query is as
    before, and the history keeps its entries (in place) or gains the
    previous query (push), by [f]'s [updateType]. *)
Theorem handler_writes_one_field (strategyOf : value -> Strategy)
    (o : Options) (g : Globals) (this : nat) (st : State)
    (cfg : list (string * FieldConfig)) (names : list string) :
  urlPropsQueryConfig o = Some cfg →
  handlersEnabled o g = true →
  cachedHandlers st = None →
  handlerNames (resolveName st g) cfg = Ok <$> names →
  ∃ hs st1,
    generateHandlers o g this st = (Ok (Some (next (store st))), st1)
    ∧ heap (store st1) !! next (store st) = Some hs
    ∧ (∀ i pf hn,
         cfg !! i = Some pf →
         names !! i = Some hn →
         (∀ j, i < j → names !! j ≠ Some hn) →
         ∃ h,
           hs !! hn = Some (PHandler h)
           ∧ h_queryParam h = default pf.1 (fc_queryParam pf.2)
           ∧ ∀ instances v u,
               let u' := updateUrlQuerySingle strategyOf
                           (generatedUrlChangeHandler h instances v) u in
               current u' !! default pf.1 (fc_queryParam pf.2)
               = Some (encode (fc_type pf.2) v)
               ∧ (∀ k, k ≠ default pf.1 (fc_queryParam pf.2) →
                       current u' !! k = current u !! k)
               ∧ entries u' = match strategyOf (fc_updateType pf.2) with
                              | ReplaceInPlace => entries u
                              | PushEntry => current u :: entries u
                              end)
    ∧ ∀ hn h, hs !! hn = Some (PHandler h) →
        ∃ i pf,
          cfg !! i = Some pf
          ∧ names !! i = Some hn
          ∧ (∀ j, i < j → names !! j ≠ Some hn)
          ∧ h_queryParam h = default pf.1 (fc_queryParam pf.2)
          ∧ ∀ instances v u,
              let u' := updateUrlQuerySingle strategyOf
                          (generatedUrlChangeHandler h instances v) u in
              current u' !! h_queryParam h = Some (encode (fc_type pf.2) v)
              ∧ (∀ k, k ≠ h_queryParam h → current u' !! k = current u !! k)
              ∧ entries u' = match strategyOf (fc_updateType pf.2) with
                             | ReplaceInPlace => entries u
                             | PushEntry => current u :: entries u
                             end.
Proof.
  intros Hc Hen Hcache Hn.
  destruct (generated_set o g this st cfg names Hc Hen Hcache Hn)
    as (hs & st1 & Hgen & _ & Hheap & Hout & Hin).
  exists hs, st1. split; [done |]. split; [done |]. split.
  - intros i pf hn Hi Hni Hlast.
    destruct (Hin hn (list_elem_of_lookup_2 _ _ _ Hni))
      as (i' & pf' & Hi' & Hni' & Hl & Hlast').
    assert (i' = i) as ->.
    { destruct (Nat.lt_trichotomy i i') as [Hlt | [-> | Hlt]]; [| done |].
      - by destruct (Hlast i' Hlt).
      - by destruct (Hlast' i Hlt). }
    assert (pf' = pf) as -> by congruence.
    eexists. split; [exact Hl |]. split; [done |].
    intros instances v u. apply handlerOf_writes_its_field.
  - intros hn h Hh.
    destruct (decide (hn ∈ names)) as [Hk | Hk];
      [| by rewrite (Hout hn Hk) in Hh].
    destruct (Hin hn Hk) as (i & pf & Hi & Hni & Hl & Hlast).
    assert (h = handlerOf this (S (next (store st))) i pf) as -> by congruence.
    exists i, pf. split; [done |]. split; [done |]. split; [done |].
    split; [done |].
    intros instances v u. apply handlerOf_writes_its_field.
Qed.

End Instances.

(** * Concrete inputs *)

(** ** Instances of the theorems *)

Lemma router_params_override_witness :
  mergingEnabled (plainOptions (VBool true)) noGlobals
  ∧ (@getUrlObject stubImports (plainOptions (VBool true)) noGlobals routedProps).1 !! "id"
    = match ({[ "id" := VStr "router" ]} : gmap string value) !! "id" with
      | Some v => Some v
      | None =>
          (@urlDerived stubImports (plainOptions (VBool true)) noGlobals routedProps).1
            !! "id"
      end.
Proof.
  split; [by left |].
  apply (@router_params_override stubImports (plainOptions (VBool true)) noGlobals
           routedProps {[ "id" := VStr "router" ]} "id").
  - by left.
  - vm_compute. reflexivity.
Defined.

Lemma location_prop_without_query_ignored_witness :
  resolveLocation historyGlobals searchOnlyProps = fallbackLocation historyGlobals
  ∧ (@getUrlObject stubImports (plainOptions VUndefined) historyGlobals
       searchOnlyProps).1 = {[ "search" := VStr "?h=1" ]}
  ∧ (@getUrlObject stubImports (plainOptions VUndefined) historyGlobals
       searchOnlyProps).2 = [Some "?h=1"]
  ∧ (∀ s', @getUrlObject stubImports (plainOptions VUndefined) historyGlobals
             (<["location" := PLocation {| loc_query := None; loc_search := s' |}]>
                searchOnlyProps)
           = @getUrlObject stubImports (plainOptions VUndefined) historyGlobals
               searchOnlyProps).
Proof.
  assert (Hl : propsLocation searchOnlyProps
               = Some {| loc_query := None; loc_search := Some "?p=1" |}).
  { vm_compute. reflexivity. }
  destruct (@location_prop_without_query_ignored stubImports (plainOptions VUndefined)
              historyGlobals searchOnlyProps _ Hl eq_refl)
    as (Hr & _ & Hurl & Hlog & _ & Hind).
  split; [exact Hr |]. split; [| split; [| exact Hind]].
  - rewrite Hurl. vm_compute. reflexivity.
  - rewrite Hlog. reflexivity.
Defined.

Lemma raw_query_passes_through_witness :
  (@getUrlObject stubImports (plainOptions (VBool false)) noGlobals routedProps).1
  = {[ "id" := VStr "url"; "page" := VStr "2" ]}.
Proof.
  pose proof (@raw_query_passes_through stubImports (plainOptions (VBool false))
                noGlobals routedProps eq_refl) as (_ & Hoff & _).
  rewrite (Hoff eq_refl). vm_compute. reflexivity.
Defined.

Lemma cached_handlers_reused_witness :
  ∃ r,
    cachedHandlers
      (getUrlChangeHandlerProps (configOptions fooBarConfig (Some copyHandlers))
         noGlobals 1 ∅
         (initState (configOptions fooBarConfig (Some copyHandlers)) emptyStore)).2
    = Some r
    ∧ r = 0
    ∧ ∀ args this' pw',
        let st2 :=
          (calls (configOptions fooBarConfig (Some copyHandlers)) noGlobals args
             (getUrlChangeHandlerProps (configOptions fooBarConfig (Some copyHandlers))
                noGlobals 1 ∅
                (initState (configOptions fooBarConfig (Some copyHandlers))
                   emptyStore)).2).2 in
        getUrlChangeHandlerProps (configOptions fooBarConfig (Some copyHandlers))
          noGlobals this' pw' st2
        = (Ok (copyHandlers pw' (Some r) (store st2)).1,
           {| changeHandlerName := changeHandlerName st2;
              cachedHandlers := Some r;
              store := (copyHandlers pw' (Some r) (store st2)).2 |}).
Proof.
  destruct (getUrlChangeHandlerProps (configOptions fooBarConfig (Some copyHandlers))
              noGlobals 1 ∅
              (initState (configOptions fooBarConfig (Some copyHandlers)) emptyStore))
    as [[res |] st1] eqn:Hcall.
  - destruct (cached_handlers_reused (configOptions fooBarConfig (Some copyHandlers))
                noGlobals fooBarConfig 1 ∅ _ st1 res eq_refl eq_refl Hcall)
      as (r & Hr & _ & _ & Hmapped).
    exists r. split; [exact Hr |]. split.
    + vm_compute in Hcall. injection Hcall as _ <-. simpl in Hr. by injection Hr.
    + exact (proj2 (Hmapped copyHandlers eq_refl)).
  - vm_compute in Hcall. discriminate.
Defined.

Lemma one_handler_per_name_witness :
  ∃ hs st1,
    generateHandlers (configOptions fooBarConfig None) noGlobals 1
      (initState (configOptions fooBarConfig None) emptyStore) = (Ok (Some 0), st1)
    ∧ heap (store st1) !! 0 = Some hs
    ∧ dom hs = list_to_set ["onChangeFoo"; "onChangeBar"]
    ∧ (NoDup ["onChangeFoo"; "onChangeBar"] → size hs = 2)
    ∧ ∀ i pf hn,
        fooBarConfig !! i = Some pf →
        ["onChangeFoo"; "onChangeBar"] !! i = Some hn →
        (∀ j, i < j → ["onChangeFoo"; "onChangeBar"] !! j ≠ Some hn) →
        ∃ h,
          hs !! hn = Some (PHandler h)
          ∧ ∀ instances v,
              @generatedUrlChangeHandler stubImports h instances v
              = {| uc_updateType := fc_updateType pf.2;
                   uc_queryParam := default pf.1 (fc_queryParam pf.2);
                   uc_encodedValue := @encode stubImports (fc_type pf.2) v;
                   uc_location := instances !! 1 ≫= (λ props, props !! "location") |}.
Proof.
  apply (@one_handler_per_name stubImports (configOptions fooBarConfig None) noGlobals 1
           (initState (configOptions fooBarConfig None) emptyStore) fooBarConfig
           ["onChangeFoo"; "onChangeBar"]); reflexivity.
Defined.

Lemma default_handler_names_witness :
  ∃ hs st1,
    generateHandlers (configOptions fooBarConfig None) noGlobals 1
      (initState (configOptions fooBarConfig None) emptyStore) = (Ok (Some 0), st1)
    ∧ heap (store st1) !! 0 = Some hs
    ∧ (∃ h, hs !! "onChangeFoo" = Some (PHandler h))
    ∧ (∃ h, hs !! "onChangeBar" = Some (PHandler h)).
Proof.
  assert (Hascii : Forall (λ pf : string * FieldConfig, asciiInitial pf.1) fooBarConfig).
  { apply Forall_cons. split.
    { exists "f"%char, "oo". split; [reflexivity | apply Nat.ltb_lt; reflexivity]. }
    apply Forall_cons. split.
    { exists "b"%char, "ar". split; [reflexivity | apply Nat.ltb_lt; reflexivity]. }
    by apply Forall_nil. }
  destruct (proj1 (default_handler_names (configOptions fooBarConfig None) noGlobals 1
                     (initState (configOptions fooBarConfig None) emptyStore)
                     fooBarConfig eq_refl eq_refl (or_intror (conj eq_refl eq_refl))
                     eq_refl) Hascii)
    as (hs & st1 & Hgen & Hheap & Hnames & _).
  exists hs, st1. split; [exact Hgen |]. split; [exact Hheap |]. split.
  - apply (Hnames "f"%char "oo" {| fc_updateType := VStr "pushIn";
                                   fc_queryParam := Some "f";
                                   fc_type := VStr "number" |}).
    by apply (list_elem_of_lookup_2 _ 0).
  - apply (Hnames "b"%char "ar" {| fc_updateType := VUndefined;
                                   fc_queryParam := None;
                                   fc_type := VStr "string" |}).
    by apply (list_elem_of_lookup_2 _ 1).
Defined.

Lemma handlers_shared_between_instances_witness :
  ∃ r hs st1,
    getUrlChangeHandlerProps (configOptions fooBarConfig None) noGlobals 1 ∅
      (initState (configOptions fooBarConfig None) emptyStore) = (Ok (Some r), st1)
    ∧ getUrlChangeHandlerProps (configOptions fooBarConfig None) noGlobals 2 ∅ st1
      = (Ok (Some r), st1)
    ∧ heap (store st1) !! r = Some hs
    ∧ dom hs = list_to_set ["onChangeFoo"; "onChangeBar"]
    ∧ ∀ hn h, hs !! hn = Some (PHandler h) →
        h_this h = 1
        ∧ ∀ instances v,
            uc_location (@generatedUrlChangeHandler stubImports h instances v)
            = instances !! 1 ≫= (λ props, props !! "location").
Proof.
  apply (@handlers_shared_between_instances stubImports
           (configOptions fooBarConfig None) noGlobals fooBarConfig
           ["onChangeFoo"; "onChangeBar"] 1 2 ∅ ∅
           (initState (configOptions fooBarConfig None) emptyStore)); reflexivity.
Defined.

Lemma no_config_no_handlers_witness :
  @decodeQuery stubImports (plainOptions VUndefined) = None
  ∧ generateHandlers (plainOptions VUndefined) noGlobals 1
      (initState (plainOptions VUndefined) emptyStore)
    = (Ok None, initState (plainOptions VUndefined) emptyStore)
  ∧ fst (@render stubImports (plainOptions VUndefined) noGlobals 1 routedProps
           (initState (plainOptions VUndefined) emptyStore))
    ≠ TypeError.
Proof.
  destruct (@no_config_no_handlers stubImports (plainOptions VUndefined) noGlobals 1
              routedProps ∅ (initState (plainOptions VUndefined) emptyStore) eq_refl)
    as (Hdec & _ & Hgen & _ & out & st1 & Hrender & _).
  split; [exact Hdec |]. split; [exact Hgen |].
  rewrite Hrender. discriminate.
Defined.

Lemma handler_writes_one_field_witness :
  ∃ hs st1 h,
    generateHandlers (configOptions fooBarConfig None) noGlobals 1
      (initState (configOptions fooBarConfig None) emptyStore) = (Ok (Some 0), st1)
    ∧ heap (store st1) !! 0 = Some hs
    ∧ hs !! "onChangeFoo" = Some (PHandler h)
    ∧ h_queryParam h = "f"
    ∧ ∀ instances v u,
        let u' := updateUrlQuerySingle stubStrategy
                    (@generatedUrlChangeHandler stubImports h instances v) u in
        current u' !! "f" = Some v
        ∧ (∀ k, k ≠ "f" → current u' !! k = current u !! k)
        ∧ entries u' = current u :: entries u.
Proof.
  destruct (@handler_writes_one_field stubImports stubStrategy
              (configOptions fooBarConfig None) noGlobals 1
              (initState (configOptions fooBarConfig None) emptyStore) fooBarConfig
              ["onChangeFoo"; "onChangeBar"] eq_refl eq_refl eq_refl eq_refl)
    as (hs & st1 & Hgen & Hheap & Hfield & _).
  destruct (Hfield 0 ("foo", {| fc_updateType := VStr "pushIn";
                                fc_queryParam := Some "f";
                                fc_type := VStr "number" |})
              "onChangeFoo" eq_refl eq_refl) as (h & Hh & Hq & Hcall).
  { intros [| [| j]] Hj; [lia | discriminate | discriminate]. }
  exists hs, st1, h. split; [exact Hgen |]. split; [exact Hheap |].
  split; [exact Hh |]. split; [exact Hq |]. exact Hcall.
Defined.

(** ** Where the wording and the code part *)

(** C1 as worded: when the merge is enabled, a URL-derived value is still in
    the url object under its key. It is not: [Object.assign(result,
    props.params)] writes the router's value over it. *)
Lemma router_params_overwrite_url_values :
  ¬ (∀ (imports : Imports) (o : Options) (g : Globals) (props : gmap string PropVal)
       (k : string) (v : value),
       mergingEnabled o g →
       (urlDerived o g props).1 !! k = Some v →
       (getUrlObject o g props).1 !! k = Some v).
Proof.
  intros Hclaim.
  specialize (Hclaim stubImports (plainOptions (VBool true)) noGlobals routedProps
                "id" (VStr "url") (or_introl eq_refl)).
  vm_compute in Hclaim. specialize (Hclaim eq_refl). discriminate.
Qed.

(** C5 as worded: a lower-priority source is used only when the location
    prop is absent. A location prop that has a search string and no query is
    there, and the window's location is used. *)
Lemma present_location_prop_passed_over :
  ¬ (∀ (g : Globals) (props : gmap string PropVal),
       (resolveLocation g props).1 ≠ PropSource →
       propsLocation props = None).
Proof.
  intros Hclaim.
  specialize (Hclaim noGlobals searchOnlyProps).
  vm_compute in Hclaim.
  assert (Hsrc : WindowSource = PropSource → False) by discriminate.
  specialize (Hclaim Hsrc). discriminate.
Qed.

(** C6 as worded: without a configuration the url object is the raw parsed
    query. With the merge enabled the router param [id] replaces the raw
    value. *)
Lemma raw_query_changed_by_router_params :
  ¬ (∀ (imports : Imports) (o : Options) (g : Globals) (props : gmap string PropVal),
       urlPropsQueryConfig o = None →
       (getUrlObject o g props).1 = (currentQueryOf (resolveLocation g props).2).1).
Proof.
  intros Hclaim.
  specialize (Hclaim stubImports (plainOptions (VBool true)) noGlobals routedProps
                eq_refl).
  apply (f_equal (λ q : gmap string value, q !! "id")) in Hclaim.
  vm_compute in Hclaim. discriminate.
Qed.

(** C7 as worded: with no naming function of the user's, every configured
    prop name has its handler prop. With [foo] and the empty prop name
    configured, the generation raises and [foo] has none. *)
Lemma empty_prop_name_leaves_no_handler :
  ¬ (∀ (o : Options) (g : Globals) (this : nat) (s : Store)
       (cfg : list (string * FieldConfig)) (c : ascii) (rest : string)
       (fc : FieldConfig),
       urlPropsQueryConfig o = Some cfg →
       NoDup cfg.*1 →
       handlersEnabled o g = true →
       opt_changeHandlerName o = None →
       cfg_changeHandlerName (urlQueryConfig g) = None →
       (String c rest, fc) ∈ cfg →
       ∃ r hs h st1,
         generateHandlers o g this (initState o s) = (Ok (Some r), st1)
         ∧ heap (store st1) !! r = Some hs
         ∧ hs !! ("onChange" +:+ String (upperCased c) rest) = Some (PHandler h)).
Proof.
  intros Hclaim.
  assert (Hnd : NoDup emptyNameConfig.*1).
  { apply NoDup_cons. split; [| apply NoDup_singleton].
    intros Hin%list_elem_of_singleton. discriminate. }
  assert (Hin : ("foo", {| fc_updateType := VUndefined; fc_queryParam := None;
                           fc_type := VStr "number" |}) ∈ emptyNameConfig).
  { by apply (list_elem_of_lookup_2 _ 0). }
  destruct (Hclaim (configOptions emptyNameConfig None) noGlobals 1 emptyStore
              emptyNameConfig "f"%char "oo" _ eq_refl Hnd eq_refl eq_refl eq_refl Hin)
    as (r & hs & h & st1 & Hgen & _).
  vm_compute in Hgen. discriminate.
Qed.

(** C3 as worded: two successive calls return the same object. With a
    mapping function that copies the generated handlers into a new object
    they return two objects. *)
Lemma mapped_result_not_reused :
  ¬ (∀ (o : Options) (g : Globals) (cfg : list (string * FieldConfig))
       (a1 a2 : nat * gmap string PropVal) (st st2 : State) (r1 r2 : option nat),
       urlPropsQueryConfig o = Some cfg →
       handlersEnabled o g = true →
       calls o g [a1; a2] st = ([Ok r1; Ok r2], st2) →
       r1 = r2).
Proof.
  intros Hclaim.
  pose (o := configOptions fooBarConfig (Some copyHandlers)).
  specialize (Hclaim o noGlobals fooBarConfig (1, ∅) (1, ∅) (initState o emptyStore)
                (calls o noGlobals [(1, ∅); (1, ∅)] (initState o emptyStore)).2
                (Some 3) (Some 4) eq_refl eq_refl).
  assert (Hrun : calls o noGlobals [(1, ∅); (1, ∅)] (initState o emptyStore)
                 = ([Ok (Some 3); Ok (Some 4)],
                    (calls o noGlobals [(1, ∅); (1, ∅)] (initState o emptyStore)).2)).
  { vm_compute. reflexivity. }
  specialize (Hclaim Hrun). discriminate.
Qed.

(** C4 as worded: as many handler props as configured fields. The fields
    [foo] and [Foo] both get the name [onChangeFoo], and the set has one
    prop. *)
Lemma two_fields_one_handler :
  ¬ (∀ (o : Options) (g : Globals) (this : nat) (st st1 : State)
       (cfg : list (string * FieldConfig)) (r : nat) (hs : gmap string PropVal),
       urlPropsQueryConfig o = Some cfg →
       NoDup cfg.*1 →
       handlersEnabled o g = true →
       generateHandlers o g this st = (Ok (Some r), st1) →
       heap (store st1) !! r = Some hs →
       size hs = length cfg).
Proof.
  intros Hclaim.
  pose (o := configOptions fooFooConfig None).
  pose (run := generateHandlers o noGlobals 1 (initState o emptyStore)).
  specialize (Hclaim o noGlobals 1 (initState o emptyStore) run.2 fooFooConfig 0
                (default ∅ (heap (store run.2) !! 0)) eq_refl).
  assert (Hnd : NoDup fooFooConfig.*1).
  { apply NoDup_cons. split; [| apply NoDup_singleton].
    intros Hin%list_elem_of_singleton. discriminate. }
  assert (Hrun : generateHandlers o noGlobals 1 (initState o emptyStore)
                 = (Ok (Some 0), run.2)).
  { vm_compute. reflexivity. }
  assert (Hheap : heap (store run.2) !! 0 = Some (default ∅ (heap (store run.2) !! 0))).
  { vm_compute. reflexivity. }
  specialize (Hclaim Hnd eq_refl Hrun Hheap).
  vm_compute in Hclaim. discriminate.
Qed.

(** ** The shared cache, run *)

(** The handler that instance 2 receives after instance 1 has rendered:
    called from instance 2, it passes the location of instance 1. *)
Example second_instance_calls_with_first_location :
  let o := configOptions fooBarConfig None in
  let '(_, st1) := getUrlChangeHandlerProps o noGlobals 1 ∅ (initState o emptyStore) in
  let '(returned, st2) := getUrlChangeHandlerProps o noGlobals 2 ∅ st1 in
  returned = Ok (Some 0)
  ∧ (h ← heap (store st2) !! 0 ≫= (λ hs, hs !! "onChangeFoo");
     match h with
     | PHandler f =>
         Some (uc_location (@generatedUrlChangeHandler stubImports f twoInstances (VNum 5)))
     | _ => None
     end)
    = Some (twoInstances !! 1 ≫= (λ props, props !! "location"))
  ∧ (twoInstances !! 1 ≫= (λ props : gmap string PropVal, props !! "location"))
    ≠ (twoInstances !! 2 ≫= (λ props, props !! "location")).
Proof.
  vm_compute. split; [reflexivity |]. split; [reflexivity |]. discriminate.
Qed.

(** An empty prop name makes the default naming function, and with it the
    first generation, raise. *)
Example empty_prop_name_raises :
  let o := configOptions [("", {| fc_updateType := VUndefined;
                                  fc_queryParam := None;
                                  fc_type := VStr "string" |})] None in
  fst (generateHandlers o noGlobals 1 (initState o emptyStore)) = TypeError.
Proof. reflexivity. Qed.

(** * Further properties of the wrapper *)

(** ** The default naming function *)

(** The default naming function raises on the empty prop name and on no
    other. *)
Theorem defaultChangeHandlerName_raises_iff (propName : string) :
  defaultChangeHandlerName propName = TypeError ↔ propName = "".
Proof.
  destruct propName as [| c rest]; [done |].
  rewrite defaultChangeHandlerName_cons. split; discriminate.
Qed.

Lemma ascii_enumerated (c : ascii) : In c (map ascii_of_nat (seq 0 256)).
Proof.
  rewrite <- (ascii_nat_embedding c). apply in_map, in_seq.
  pose proof (nat_ascii_bounded c). lia.
Qed.

(** Checked on all pairs of characters: two characters have the same upper
    case exactly when they are equal or the two forms of one letter. *)
Lemma upperCased_same_table (a b : ascii) :
  bool_decide (upperCased a = upperCased b)
  = bool_decide (a = b)
    || bool_decide ((a, b) ∈ lowerUpper)
    || bool_decide ((b, a) ∈ lowerUpper).
Proof.
  assert (Hall : forallb (λ x,
                   forallb (λ y,
                     Bool.eqb (bool_decide (upperCased x = upperCased y))
                       (bool_decide (x = y)
                        || bool_decide ((x, y) ∈ lowerUpper)
                        || bool_decide ((y, x) ∈ lowerUpper)))
                     (map ascii_of_nat (seq 0 256)))
                   (map ascii_of_nat (seq 0 256)) = true).
  { vm_compute. reflexivity. }
  rewrite forallb_forall in Hall. specialize (Hall a (ascii_enumerated a)).
  rewrite forallb_forall in Hall. specialize (Hall b (ascii_enumerated b)).
  by apply Bool.eqb_prop in Hall.
Qed.

(** Two prop names with ASCII first characters get the same default handler
    name exactly when they agree after the first character and their first
    characters have the same upper case: they are equal, or the lower-case
    and the upper-case form of one letter. *)
Theorem defaultChangeHandlerName_collision (c c' : ascii) (rest rest' : string) :
  isAscii c →
  isAscii c' →
  defaultChangeHandlerName (String c rest) = defaultChangeHandlerName (String c' rest')
  ↔ rest = rest'
    ∧ (c = c' ∨ (c, c') ∈ lowerUpper ∨ (c', c) ∈ lowerUpper).
Proof.
  intros _ _. rewrite !defaultChangeHandlerName_cons, !toUpperCaseChar_upperCased.
  assert (Hup : upperCased c = upperCased c'
                ↔ c = c' ∨ (c, c') ∈ lowerUpper ∨ (c', c) ∈ lowerUpper).
  { assert (Hdec : ∀ a b : ascii,
              bool_decide (upperCased a = upperCased b)
              = bool_decide (a = b)
                || bool_decide ((a, b) ∈ lowerUpper)
                || bool_decide ((b, a) ∈ lowerUpper)).
    { intros a b. apply (upperCased_same_table a b). }
    specialize (Hdec c c').
    rewrite <- (bool_decide_spec (upperCased c = upperCased c')), Hdec.
    rewrite !orb_True, !bool_decide_spec. tauto. }
  split.
  - intros Heq. simpl in Heq. injection Heq as Hc Hrest.
    split; [done |]. by apply Hup.
  - intros [-> Hc]. apply Hup in Hc. by rewrite Hc.
Qed.

(** ** The query source, continued *)

Section Sources.
Context {imports : Imports}.

(** A location prop that carries a query is the source: nothing is parsed,
    the url object is that query (decoded when there is a decoder), and the
    locations of the history and of the window play no part. *)
Theorem location_prop_with_query_used
    (o : Options) (g : Globals) (props : gmap string PropVal)
    (l : Location) (q : gmap string value) :
  propsLocation props = Some l →
  loc_query l = Some q →
  resolveLocation g props = (PropSource, l)
  ∧ (getUrlObject o g props).2 = []
  ∧ (urlDerived o g props).1
    = match decodeQuery o with
      | Some decode => decode q
      | None => q
      end
  ∧ ∀ g', cfg_addRouterParams (urlQueryConfig g') = cfg_addRouterParams (urlQueryConfig g) →
          getUrlObject o g' props = getUrlObject o g props.
Proof.
  intros Hl Hq.
  assert (Hr : ∀ g0, resolveLocation g0 props = (PropSource, l)).
  { intros g0. unfold resolveLocation. by rewrite Hl, Hq. }
  assert (Hd : ∀ g0, urlDerived o g0 props
                     = (match decodeQuery o with
                        | Some decode => decode q
                        | None => q
                        end, [])).
  { intros g0. unfold urlDerived, currentQueryOf. rewrite Hr, Hq.
    by destruct (decodeQuery o). }
  split; [done |]. split; [| split].
  - rewrite getUrlObject_parsed, Hr. unfold currentQueryOf. simpl. by rewrite Hq.
  - by rewrite Hd.
  - intros g' Hflag. unfold getUrlObject, routerParamsEnabled.
    by rewrite !Hd, Hflag.
Qed.

(** When the location in use has no query, the parser is called exactly
    once, on the search string of that location; a falsy parse result
    stands for the empty query. *)
Theorem parser_called_on_resolved_search
    (o : Options) (g : Globals) (props : gmap string PropVal) :
  loc_query (resolveLocation g props).2 = None →
  (getUrlObject o g props).2 = [loc_search (resolveLocation g props).2]
  ∧ (parseQueryString (loc_search (resolveLocation g props).2) = None →
     (urlDerived o g props).1
     = match decodeQuery o with
       | Some decode => decode ∅
       | None => ∅
       end).
Proof.
  intros Hq. split.
  - rewrite getUrlObject_parsed. unfold currentQueryOf. rewrite Hq.
    by destruct (parseQueryString _).
  - intros Hp. unfold urlDerived, currentQueryOf.
    destruct (resolveLocation g props) as [src l]. simpl in *.
    rewrite Hq, Hp. by destruct (decodeQuery o).
Qed.

(** Nothing is merged when [addRouterParams] is [false], whatever the global
    setting; when the option is falsy and the global setting is falsy; or
    when the props have no [params] object. The url object is then the
    URL-derived query. *)
Theorem merge_skipped (o : Options) (g : Globals) (props : gmap string PropVal) :
  addRouterParams o = VBool false
  ∨ (truthy (addRouterParams o) = false
     ∧ truthy (cfg_addRouterParams (urlQueryConfig g)) = false)
  ∨ propsParams props = None →
  getUrlObject o g props = urlDerived o g props.
Proof.
  unfold getUrlObject, routerParamsEnabled.
  destruct (urlDerived o g props) as [result parsed].
  intros [Hf | [[Ho Hg] | Hp]].
  - by rewrite Hf.
  - rewrite Ho, Hg. by rewrite andb_false_r.
  - rewrite Hp. simpl. by destruct (_ || _).
Qed.

End Sources.

(** ** Naming functions and raising generations *)

Lemma handlerNames_user (f : string -> string) (cfg : list (string * FieldConfig)) :
  handlerNames (UserName f) cfg = Ok <$> ((λ pf, f pf.1) <$> cfg).
Proof.
  induction cfg as [| pf cfg IH]; [done |].
  change (handlerNames (UserName f) (pf :: cfg))
    with (Ok (f pf.1) :: handlerNames (UserName f) cfg).
  by rewrite IH.
Qed.

Lemma handlerNames_cases (name : NameFn) (cfg : list (string * FieldConfig)) :
  (∃ names, handlerNames name cfg = Ok <$> names)
  ∨ TypeError ∈ handlerNames name cfg.
Proof.
  induction cfg as [| pf cfg IH].
  - left. by exists [].
  - change (handlerNames name (pf :: cfg))
      with (callName name pf.1 :: handlerNames name cfg).
    destruct (callName name pf.1) as [hn |] eqn:Hc.
    + destruct IH as [(names & Hn) | Hin].
      * left. exists (hn :: names). by rewrite Hn.
      * right. apply elem_of_cons. by right.
    + right. apply elem_of_cons. by left.
Qed.

(** The [reduce] raises exactly when the naming function raises for a field;
    the instance, the accumulator and the references play no part. *)
Lemma reduceHandlers_raises_iff (this : nat) (name : NameFn)
    (cfg : list (string * FieldConfig)) (acc : gmap string PropVal) (n : nat) :
  reduceHandlers this name cfg acc n = TypeError ↔ TypeError ∈ handlerNames name cfg.
Proof.
  split; [| apply reduceHandlers_raises].
  intros Hr. destruct (handlerNames_cases name cfg) as [(names & Hn) | Hin]; [| done].
  destruct (reduceHandlers_spec this name cfg names acc n Hn) as (hs & Hok & _).
  congruence.
Qed.

Section Naming.
Context {imports : Imports}.

(** A naming function given in the options is used for every field,
    whatever the global configuration holds; without one, the global
    configuration's naming function is used. Such a generation returns, also
    for an empty prop name, and the set has exactly the props the function
    names. *)
Theorem custom_handler_names (o : Options) (g : Globals) (this : nat) (s : Store)
    (cfg : list (string * FieldConfig)) (f : string -> string) :
  urlPropsQueryConfig o = Some cfg →
  handlersEnabled o g = true →
  opt_changeHandlerName o = Some f
  ∨ (opt_changeHandlerName o = None ∧ cfg_changeHandlerName (urlQueryConfig g) = Some f) →
  ∃ hs st1,
    generateHandlers o g this (initState o s) = (Ok (Some (next s)), st1)
    ∧ heap (store st1) !! next s = Some hs
    ∧ dom hs = list_to_set ((λ pf, f pf.1) <$> cfg).
Proof.
  intros Hc Hen Hname.
  assert (Hres : resolveName (initState o s) g = UserName f).
  { unfold resolveName, initState. simpl.
    destruct Hname as [-> | [-> ->]]; done. }
  apply (generated_set_dom o g this (initState o s) cfg _ Hc Hen eq_refl).
  rewrite Hres. apply handlerNames_user.
Qed.

(** A generation that raises leaves no set in the cache and no object in
    the store, and fixes the naming function: every later generation, by any
    instance and under any global configuration that enables it, raises
    again. *)
Theorem raising_generation_is_permanent (o : Options) (g : Globals) (this : nat)
    (st st1 : State) :
  generateHandlers o g this st = (TypeError, st1) →
  cachedHandlers st1 = None
  ∧ store st1 = store st
  ∧ (∀ g', resolveName st1 g' = resolveName st g)
  ∧ ∀ g' this', handlersEnabled o g' = true →
      generateHandlers o g' this' st1 = (TypeError, st1).
Proof.
  unfold generateHandlers.
  destruct (urlPropsQueryConfig o) as [cfg |]; [| done].
  destruct (handlersEnabled o g); [| done].
  destruct (cachedHandlers st) as [r |]; [done |].
  destruct (reduceHandlers this (resolveName st g) cfg ∅ (S (next (store st))))
    as [[hs n] |] eqn:Hred; [done |].
  intros [= <-]. split; [done |]. split; [done |]. split; [done |].
  intros g' this' ->. simpl.
  change (resolveName _ g') with (resolveName st g).
  apply reduceHandlers_raises_iff in Hred.
  by rewrite (reduceHandlers_raises this' (resolveName st g) cfg ∅ _ Hred).
Qed.

(** With the default naming function in force, an empty prop name in the
    configuration makes [render] raise: no props are produced, nothing is
    cached and the store is as before. *)
Theorem empty_prop_name_breaks_render (o : Options) (g : Globals) (this : nat)
    (props : gmap string PropVal) (s : Store)
    (cfg : list (string * FieldConfig)) (fc : FieldConfig) :
  urlPropsQueryConfig o = Some cfg →
  handlersEnabled o g = true →
  opt_changeHandlerName o = None →
  cfg_changeHandlerName (urlQueryConfig g) = None →
  ("", fc) ∈ cfg →
  ∃ st1,
    render o g this props (initState o s) = (TypeError, st1)
    ∧ cachedHandlers st1 = None
    ∧ store st1 = s.
Proof.
  intros Hc Hen Hopt Hglob Hin.
  assert (Hres : resolveName (initState o s) g = DefaultName).
  { unfold resolveName, initState. simpl. by rewrite Hopt, Hglob. }
  assert (Hraise : TypeError ∈ handlerNames DefaultName cfg).
  { unfold handlerNames. apply list_elem_of_fmap. by exists ("", fc). }
  eexists. split.
  - unfold render. destruct (getUrlObject o g props) as [url parsed].
    unfold getUrlChangeHandlerProps, generateHandlers.
    rewrite Hc, Hen. simpl. rewrite Hres.
    by rewrite (reduceHandlers_raises this DefaultName cfg ∅ _ Hraise).
  - done.
Qed.

(** An [addUrlChangeHandlers] option that is neither [undefined] nor [null]
    decides by itself, whatever the global configuration says: a falsy one
    ([false], [0], the empty string) yields no handlers and leaves the state
    alone. *)
Theorem explicit_handlers_flag_decides (o : Options) (g : Globals) :
  looseNull (addUrlChangeHandlers o) = false →
  handlersEnabled o g = truthy (addUrlChangeHandlers o)
  ∧ (truthy (addUrlChangeHandlers o) = false →
     ∀ this st, generateHandlers o g this st = (Ok None, st)).
Proof.
  intros Hn.
  assert (Hen : handlersEnabled o g = truthy (addUrlChangeHandlers o)).
  { unfold handlersEnabled. rewrite Hn. simpl. by rewrite orb_false_r. }
  split; [done |].
  intros Hf this st. unfold generateHandlers. rewrite Hen, Hf.
  by destruct (urlPropsQueryConfig o).
Qed.

(** Once a set has been generated, the global configuration no longer
    matters for it: under any later configuration that enables generation
    the same set comes back as it is, with the names of the first
    generation; under one that disables generation the method's generation
    step yields [undefined] and the cache is kept. *)
Theorem cache_ignores_later_configuration (o : Options) (g : Globals) (this : nat)
    (st : State) (cfg : list (string * FieldConfig)) (names : list string) :
  urlPropsQueryConfig o = Some cfg →
  handlersEnabled o g = true →
  cachedHandlers st = None →
  handlerNames (resolveName st g) cfg = Ok <$> names →
  ∃ r hs st1,
    generateHandlers o g this st = (Ok (Some r), st1)
    ∧ heap (store st1) !! r = Some hs
    ∧ dom hs = list_to_set names
    ∧ ∀ g' this',
        generateHandlers o g' this' st1
        = (Ok (if handlersEnabled o g' then Some r else None), st1).
Proof.
  intros Hc Hen Hcache Hn.
  destruct (generated_set o g this st cfg names Hc Hen Hcache Hn)
    as (hs & st1 & Hgen & Hcached & Hheap & _).
  destruct (generated_set_dom o g this st cfg names Hc Hen Hcache Hn)
    as (hs' & st1' & Hgen' & Hheap' & Hdom).
  rewrite Hgen in Hgen'. injection Hgen' as <-.
  rewrite Hheap in Hheap'. injection Hheap' as <-.
  exists (next (store st)), hs, st1.
  split; [done |]. split; [done |]. split; [done |].
  intros g' this'. unfold generateHandlers. rewrite Hc.
  destruct (handlersEnabled o g'); [| done]. by rewrite Hcached.
Qed.

End Naming.

(** ** What [render] hands to the wrapped component *)

Section Rendering.
Context {imports : Imports}.

Lemma render_stages (o : Options) (g : Globals) (this : nat)
    (props : gmap string PropVal) (st : State) :
  render o g this props st
  = match getUrlChangeHandlerProps o g this (propsWithUrlOf o g props) st with
    | (TypeError, st1) => (TypeError, st1)
    | (Ok handlers, st1) =>
        (Ok (objectAssign (propsWithUrlOf o g props)
                (handlers ≫= (λ r, heap (store st1) !! r))), st1)
    end.
Proof.
  unfold render, propsWithUrlOf, mappedUrlProps.
  by destruct (getUrlObject o g props) as [url parsed].
Qed.

Lemma propsWithUrlOf_lookup (o : Options) (g : Globals)
    (props : gmap string PropVal) (k : string) :
  propsWithUrlOf o g props !! k
  = match mappedUrlProps o g props !! k with
    | Some v => Some v
    | None => props !! k
    end.
Proof.
  unfold propsWithUrlOf. rewrite !objectAssign_lookup. simpl.
  destruct (mappedUrlProps o g props !! k); [done |].
  by destruct (props !! k).
Qed.

(** The props [render] computes, key by key: the handler object's prop when
    it has one, else the prop [mapUrlToProps] made from the url object, else
    the wrapper's own prop as it came in. *)
Lemma render_precedence (o : Options) (g : Globals) (this : nat)
    (props : gmap string PropVal) (st st1 : State) (handlers : option nat) :
  getUrlChangeHandlerProps o g this (propsWithUrlOf o g props) st = (Ok handlers, st1) →
  ∃ out,
    render o g this props st = (Ok out, st1)
    ∧ ∀ k,
        out !! k
        = match (handlers ≫= (λ r, heap (store st1) !! r)) ≫= (λ hs, hs !! k) with
          | Some v => Some v
          | None =>
              match mappedUrlProps o g props !! k with
              | Some v => Some v
              | None => props !! k
              end
          end.
Proof.
  intros Hget. eexists. split.
  - by rewrite render_stages, Hget.
  - intros k. by rewrite objectAssign_lookup, propsWithUrlOf_lookup.
Qed.

(** Without a configuration and without mapping functions, and when the
    merge of the router params does not write into the query of the location
    prop (the merge is off, there are no params, or the location prop is not
    the source), the raw url object is spread over the props: a query key
    becomes a prop holding the url object's value, also over an own prop of
    that name, the other props pass through as they came, and the state of
    the wrapper is untouched. *)
Theorem raw_query_becomes_props (o : Options) (g : Globals) (this : nat)
    (props : gmap string PropVal) (st : State) :
  urlPropsQueryConfig o = None →
  mapUrlToProps o = None →
  mapUrlChangeHandlersToProps o = None →
  routerParamsEnabled o g = false
  ∨ propsParams props = None
  ∨ usableLocationProp props = None →
  ∃ out,
    render o g this props st = (Ok out, st)
    ∧ ∀ k,
        out !! k
        = match (getUrlObject o g props).1 !! k with
          | Some v => Some (PVal v)
          | None => props !! k
          end.
Proof.
  intros Hc Hm Hh _.
  assert (Hget : getUrlChangeHandlerProps o g this (propsWithUrlOf o g props) st
                 = (Ok None, st)).
  { unfold getUrlChangeHandlerProps, generateHandlers. by rewrite Hc, Hh. }
  eexists. split.
  - by rewrite render_stages, Hget.
  - intros k. simpl. rewrite propsWithUrlOf_lookup.
    unfold mappedUrlProps. rewrite Hm, lookup_fmap.
    by destruct ((getUrlObject o g props).1 !! k).
Qed.

(** Without [mapUrlChangeHandlersToProps], a call that has returned is
    repeated exactly by any later call from the state it left. *)
Lemma getUrlChangeHandlerProps_settles (o : Options) (g : Globals) (this this' : nat)
    (pw pw' : gmap string PropVal) (st st1 : State) (handlers : option nat) :
  mapUrlChangeHandlersToProps o = None →
  getUrlChangeHandlerProps o g this pw st = (Ok handlers, st1) →
  getUrlChangeHandlerProps o g this' pw' st1 = (Ok handlers, st1).
Proof.
  intros Hmap. unfold getUrlChangeHandlerProps, generateHandlers. rewrite Hmap.
  destruct (urlPropsQueryConfig o) as [cfg |]; [| by intros [= <- <-]].
  destruct (handlersEnabled o g); [| by intros [= <- <-]].
  destruct (cachedHandlers st) as [r |] eqn:Hcache.
  - intros [= <- <-]. by rewrite Hcache.
  - destruct (reduceHandlers _ _ _ _ _) as [[hs n] |]; [| done].
    by intros [= <- <-].
Qed.

(** Without [mapUrlChangeHandlersToProps], a render that has returned is
    stable: rendering the same props again, from any instance, gives the
    same props for the wrapped component and leaves the state as it is. *)
Theorem render_again_same (o : Options) (g : Globals) (this this' : nat)
    (props : gmap string PropVal) (st st1 : State) (out : gmap string PropVal) :
  mapUrlChangeHandlersToProps o = None →
  render o g this props st = (Ok out, st1) →
  render o g this' props st1 = (Ok out, st1).
Proof.
  intros Hmap. rewrite !render_stages.
  destruct (getUrlChangeHandlerProps o g this (propsWithUrlOf o g props) st)
    as [[handlers |] st0] eqn:Hget; [| done].
  intros [= <- <-].
  by rewrite (getUrlChangeHandlerProps_settles o g this this' _ _ st st0 handlers
                Hmap Hget).
Qed.

(** On the render that generates the set, the wrapped component gets the
    generated handler of a field under the field's handler name, whatever
    own prop or url prop has that name; the field is the last one with the
    name. *)
Theorem rendered_handler_props (o : Options) (g : Globals) (this : nat)
    (props : gmap string PropVal) (st : State)
    (cfg : list (string * FieldConfig)) (names : list string)
    (i : nat) (pf : string * FieldConfig) (hn : string) :
  urlPropsQueryConfig o = Some cfg →
  handlersEnabled o g = true →
  mapUrlChangeHandlersToProps o = None →
  cachedHandlers st = None →
  handlerNames (resolveName st g) cfg = Ok <$> names →
  cfg !! i = Some pf →
  names !! i = Some hn →
  (∀ j, i < j → names !! j ≠ Some hn) →
  ∃ out st1,
    render o g this props st = (Ok out, st1)
    ∧ cachedHandlers st1 = Some (next (store st))
    ∧ out !! hn = Some (PHandler (handlerOf this (S (next (store st))) i pf)).
Proof.
  intros Hc Hen Hmap Hcache Hn Hi Hni Hlast.
  destruct (generated_set o g this st cfg names Hc Hen Hcache Hn)
    as (hs & st1 & Hgen & Hcached & Hheap & _ & Hin).
  assert (Hget : getUrlChangeHandlerProps o g this (propsWithUrlOf o g props) st
                 = (Ok (Some (next (store st))), st1)).
  { unfold getUrlChangeHandlerProps. by rewrite Hgen, Hmap. }
  destruct (render_precedence o g this props st st1 _ Hget) as (out & Hrender & Hout).
  exists out, st1. split; [done |]. split; [done |].
  rewrite Hout. simpl. rewrite Hheap. simpl.
  destruct (Hin hn (list_elem_of_lookup_2 _ _ _ Hni)) as (i' & pf' & Hi' & Hni' & Hl & Hlast').
  assert (i' = i) as ->.
  { destruct (Nat.lt_trichotomy i i') as [Hlt | [-> | Hlt]]; [| done |].
    - by destruct (Hlast i' Hlt).
    - by destruct (Hlast' i Hlt). }
  assert (pf' = pf) as -> by congruence.
  by rewrite Hl.
Qed.

End Rendering.

(** ** The wrapper class *)

(** The display name of the wrapper is [AddUrlProps(inner)] with a non-empty
    [inner]: the component's [displayName] when that is a non-empty string,
    else its [name] when that is one, else [Component]. *)
Theorem wrapper_displayName (W : Component) :
  cls_displayName (addPropsWrapper W) = "AddUrlProps(" +:+ displayName W +:+ ")"
  ∧ displayName W ≠ ""
  ∧ (wc_displayName W = Some (displayName W)
     ∨ ((wc_displayName W = None ∨ wc_displayName W = Some "")
        ∧ (wc_name W = Some (displayName W)
           ∨ ((wc_name W = None ∨ wc_name W = Some "")
              ∧ displayName W = "Component")))).
Proof.
  split; [done |]. unfold displayName, orString.
  destruct (wc_displayName W) as [d |], (wc_name W) as [n |];
    repeat match goal with
           | |- context [String.eqb ?x ""] =>
               destruct (String.eqb_spec x "") as [-> | ?]
           end;
    simpl; (split; [by auto |]); naive_solver.
Qed.

(** ** Instances of the further properties *)

Lemma defaultChangeHandlerName_collision_witness :
  defaultChangeHandlerName "foo" = defaultChangeHandlerName "Foo"
  ∧ defaultChangeHandlerName "foo" ≠ defaultChangeHandlerName "goo".
Proof.
  assert (Hf : isAscii "f") by (apply Nat.ltb_lt; reflexivity).
  assert (HF : isAscii "F") by (apply Nat.ltb_lt; reflexivity).
  assert (Hg : isAscii "g") by (apply Nat.ltb_lt; reflexivity).
  split.
  - apply (defaultChangeHandlerName_collision "f" "F" "oo" "oo" Hf HF).
    split; [reflexivity |]. right. left.
    by apply (list_elem_of_lookup_2 _ 5).
  - intros Heq.
    apply (defaultChangeHandlerName_collision "f" "g" "oo" "oo" Hf Hg) in Heq
      as [_ Hcase].
    revert Hcase. apply (bool_decide_eq_false_1 _). vm_compute. reflexivity.
Defined.

Lemma location_prop_with_query_used_witness :
  resolveLocation historyGlobals routedProps
  = (PropSource,
     {| loc_query := Some {[ "id" := VStr "url"; "page" := VStr "2" ]};
        loc_search := Some "?id=url&page=2" |})
  ∧ (@getUrlObject stubImports (plainOptions (VBool false)) historyGlobals routedProps).2
    = [].
Proof.
  assert (Hl : propsLocation routedProps
               = Some {| loc_query := Some {[ "id" := VStr "url"; "page" := VStr "2" ]};
                         loc_search := Some "?id=url&page=2" |}).
  { vm_compute. reflexivity. }
  destruct (@location_prop_with_query_used stubImports (plainOptions (VBool false))
              historyGlobals routedProps _ _ Hl eq_refl) as (Hr & Ht & _).
  by split.
Defined.

Lemma parser_called_on_resolved_search_witness :
  (@getUrlObject stubImports (plainOptions VUndefined) noGlobals searchOnlyProps).2
  = [loc_search (resolveLocation noGlobals searchOnlyProps).2].
Proof.
  assert (Hq : loc_query (resolveLocation noGlobals searchOnlyProps).2 = None).
  { vm_compute. reflexivity. }
  exact (proj1 (@parser_called_on_resolved_search stubImports (plainOptions VUndefined)
                  noGlobals searchOnlyProps Hq)).
Defined.

Lemma merge_skipped_witness :
  @getUrlObject stubImports (plainOptions (VBool false)) namingGlobals routedProps
  = @urlDerived stubImports (plainOptions (VBool false)) namingGlobals routedProps.
Proof.
  apply (@merge_skipped stubImports (plainOptions (VBool false)) namingGlobals
           routedProps).
  by left.
Defined.

Lemma custom_handler_names_witness :
  ∃ hs st1,
    generateHandlers (namedOptions fooBarConfig) noGlobals 1
      (initState (namedOptions fooBarConfig) emptyStore) = (Ok (Some 0), st1)
    ∧ heap (store st1) !! 0 = Some hs
    ∧ dom hs = list_to_set ((λ pf : string * FieldConfig, setName pf.1) <$> fooBarConfig).
Proof.
  apply (custom_handler_names (namedOptions fooBarConfig) noGlobals 1 emptyStore
           fooBarConfig setName); [reflexivity | reflexivity |].
  by left.
Defined.

Lemma raising_generation_is_permanent_witness :
  generateHandlers (configOptions emptyNameConfig None) noGlobals 1
    (initState (configOptions emptyNameConfig None) emptyStore)
  = (TypeError,
     {| changeHandlerName := Some DefaultName;
        cachedHandlers := None;
        store := emptyStore |})
  ∧ ∀ g' this',
      handlersEnabled (configOptions emptyNameConfig None) g' = true →
      generateHandlers (configOptions emptyNameConfig None) g' this'
        {| changeHandlerName := Some DefaultName;
           cachedHandlers := None;
           store := emptyStore |}
      = (TypeError,
         {| changeHandlerName := Some DefaultName;
            cachedHandlers := None;
            store := emptyStore |}).
Proof.
  split; [reflexivity |].
  assert (Hraise : generateHandlers (configOptions emptyNameConfig None) noGlobals 1
                     (initState (configOptions emptyNameConfig None) emptyStore)
                   = (TypeError,
                      {| changeHandlerName := Some DefaultName;
                         cachedHandlers := None;
                         store := emptyStore |})).
  { reflexivity. }
  exact (proj2 (proj2 (proj2 (raising_generation_is_permanent _ _ _ _ _ Hraise)))).
Defined.

Lemma empty_prop_name_breaks_render_witness :
  ∃ st1,
    @render stubImports (configOptions emptyNameConfig None) noGlobals 1 routedProps
      (initState (configOptions emptyNameConfig None) emptyStore) = (TypeError, st1)
    ∧ cachedHandlers st1 = None
    ∧ store st1 = emptyStore.
Proof.
  apply (@empty_prop_name_breaks_render stubImports (configOptions emptyNameConfig None)
           noGlobals 1 routedProps emptyStore emptyNameConfig
           {| fc_updateType := VUndefined; fc_queryParam := None; fc_type := VStr "string" |});
    try reflexivity.
  by apply (list_elem_of_lookup_2 _ 1).
Defined.

Lemma explicit_handlers_flag_decides_witness :
  handlersEnabled
    {| mapUrlToProps := None;
       mapUrlChangeHandlersToProps := None;
       urlPropsQueryConfig := Some fooBarConfig;
       addRouterParams := VUndefined;
       addUrlChangeHandlers := VNum 0;
       opt_changeHandlerName := None |} noGlobals = false.
Proof.
  exact (proj1 (explicit_handlers_flag_decides
                  {| mapUrlToProps := None;
                     mapUrlChangeHandlersToProps := None;
                     urlPropsQueryConfig := Some fooBarConfig;
                     addRouterParams := VUndefined;
                     addUrlChangeHandlers := VNum 0;
                     opt_changeHandlerName := None |} noGlobals eq_refl)).
Defined.

Lemma cache_ignores_later_configuration_witness :
  ∃ r hs st1,
    generateHandlers (configOptions fooBarConfig None) noGlobals 1
      (initState (configOptions fooBarConfig None) emptyStore) = (Ok (Some r), st1)
    ∧ heap (store st1) !! r = Some hs
    ∧ dom hs = list_to_set ["onChangeFoo"; "onChangeBar"]
    ∧ ∀ g' this',
        generateHandlers (configOptions fooBarConfig None) g' this' st1
        = (Ok (if handlersEnabled (configOptions fooBarConfig None) g'
               then Some r else None), st1).
Proof.
  apply (cache_ignores_later_configuration (configOptions fooBarConfig None) noGlobals 1
           (initState (configOptions fooBarConfig None) emptyStore) fooBarConfig
           ["onChangeFoo"; "onChangeBar"]); reflexivity.
Defined.

Lemma raw_query_becomes_props_witness :
  ∃ out,
    @render stubImports (plainOptions (VBool false)) noGlobals 1 routedProps
      (initState (plainOptions (VBool false)) emptyStore)
    = (Ok out, initState (plainOptions (VBool false)) emptyStore)
    ∧ out !! "page" = Some (PVal (VStr "2")).
Proof.
  destruct (@raw_query_becomes_props stubImports (plainOptions (VBool false)) noGlobals 1
              routedProps (initState (plainOptions (VBool false)) emptyStore)
              eq_refl eq_refl eq_refl (or_introl eq_refl)) as (out & Hrender & Hout).
  exists out. split; [exact Hrender |].
  rewrite Hout. vm_compute. reflexivity.
Defined.

Lemma render_again_same_witness :
  ∃ out st1,
    @render stubImports (configOptions fooBarConfig None) noGlobals 1 searchOnlyProps
      (initState (configOptions fooBarConfig None) emptyStore) = (Ok out, st1)
    ∧ @render stubImports (configOptions fooBarConfig None) noGlobals 2 searchOnlyProps st1
      = (Ok out, st1).
Proof.
  destruct (@render stubImports (configOptions fooBarConfig None) noGlobals 1
              searchOnlyProps (initState (configOptions fooBarConfig None) emptyStore))
    as [[out |] st1] eqn:Hrender.
  - exists out, st1. split; [reflexivity |].
    exact (@render_again_same stubImports (configOptions fooBarConfig None) noGlobals
             1 2 searchOnlyProps _ st1 out eq_refl Hrender).
  - vm_compute in Hrender. discriminate.
Defined.

Lemma rendered_handler_props_witness :
  ∃ out st1,
    @render stubImports (configOptions fooBarConfig None) noGlobals 1 searchOnlyProps
      (initState (configOptions fooBarConfig None) emptyStore) = (Ok out, st1)
    ∧ cachedHandlers st1 = Some 0
    ∧ out !! "onChangeFoo"
      = Some (PHandler
                (handlerOf 1 1 0
                   ("foo", {| fc_updateType := VStr "pushIn";
                              fc_queryParam := Some "f";
                              fc_type := VStr "number" |}))).
Proof.
  apply (@rendered_handler_props stubImports (configOptions fooBarConfig None) noGlobals 1
           searchOnlyProps (initState (configOptions fooBarConfig None) emptyStore)
           fooBarConfig ["onChangeFoo"; "onChangeBar"] 0); try reflexivity.
  intros [| [| j]] Hj; [lia | discriminate | discriminate].
Defined.
